(** * The conduit pipeline core: retry loop, cursor metadata and Init

    A shallow embedding of [conduit/pipeline/pipeline.go].  The methods of
    [pipelineImpl] become functions in a small state monad over the
    pipeline object together with its surroundings: the plugins and the Go
    runtime act on an explicit world, the two metadata files live in an
    explicit file system, and every log line, metric observation and
    plugin call (with what it returned) is appended to a trace.

    Not modelled: panics of the plugins (a plugin call returns a value or
    an error), the loggers handed to the plugins, the values of the
    timing observations (durations of real time), [Stop], [Wait] and
    [MakePipeline].  The worker of [Start] is run for a number of turns
    of its [for] loop. *)

From Stdlib Require Import ZArith NArith List String Ascii Bool Lia Sorted.
Import ListNotations.
Open Scope string_scope.
Open Scope Z_scope.

Set Implicit Arguments.

(** ** Machine integers *)

(** [uint64] values are kept as [Z]; arithmetic on them goes through
    [wrap64], as Go's does. *)
Definition uint64_modulus : Z := 2 ^ 64.
Definition MaxUint64 : Z := uint64_modulus - 1.
Definition wrap64 (z : Z) : Z := z mod uint64_modulus.
Arguments wrap64 : simpl never.
Definition in_uint64 (z : Z) : Prop := 0 <= z < uint64_modulus.

(** ** Errors *)

(** The operations of the runtime and of the operating system that
    [pipeline.go] calls and that can fail for reasons outside the program. *)
Inductive ioOp :=
| OsCreateProfile      (* os.Create(p.cfg.CPUProfile) *)
| PprofStartCPUProfile (* pprof.StartCPUProfile *)
| CreateIndexerPidFile (* util.CreateIndexerPidFile *)
| YamlMarshal          (* yaml.Marshal of a plugin configuration *)
| OsMkdirAll           (* os.MkdirAll of a plugin data directory *)
| OsStat               (* os.Stat(metadata.json) *)
| OsRemove             (* os.Remove(metadata.json) *)
| OsCreateTemp         (* os.Create(metadata.json.temp) *)
| JsonEncode           (* json.NewEncoder(file).Encode *)
| OsRename             (* os.Rename(temp, metadata.json) *)
| OsReadFile.          (* os.ReadFile(metadata.json) *)

(** Go [error] values.  [FmtErrorf prefix cause] is
    [fmt.Errorf("<prefix>: %w", cause)]. *)
Inductive error :=
| ErrNotExist
| IoError (op : ioOp)
| JsonError
| PluginError (msg : string)
| FmtErrorf (prefix : string) (cause : error)
| GenesisMismatch (actual : list Byte.byte) (expected : string).

(** [errors.Is(err, os.ErrNotExist)] *)
Fixpoint errorsIsNotExist (e : error) : bool :=
  match e with
  | ErrNotExist => true
  | FmtErrorf _ cause => errorsIsNotExist cause
  | _ => false
  end.

Inductive result (A : Type) :=
| Ok (a : A)
| Err (e : error).
Arguments Ok {A} a.
Arguments Err {A} e.

(** ** Configuration *)

Record Args := {
  ConduitDataDir : string;
  NextRoundOverride : Z          (* uint64 *)
}.

Record Metrics := {
  Mode : string;
  Addr : string;
  Prefix : string
}.

Record Config := {
  ConduitArgs : Args;
  CPUProfile : string;
  PIDFilePath : string;
  ImporterConfig : string;
  ProcessorConfigs : list string;
  ExporterConfig : string;
  MetricsConfig : Metrics;
  RetryCount : Z;                (* uint64 *)
  RetryDelay : Z                 (* time.Duration *)
}.

Definition DefaultMetricsPrefix : string := "conduit".

(** ** Pipeline state and block data *)

(** [state] contains the pipeline state. *)
Record state := {
  GenesisHash : string;
  Network : string;
  NextRound : Z                  (* uint64 *)
}.

(** What the core reads of a block: its round and the transaction types
    of its payset. *)
Record BlockData := {
  Round : Z;
  Payset : list string
}.

Record Genesis := {
  Hash : list Byte.byte;
  GenesisNetwork : string
}.

Record PluginConfig := {
  PluginConfigConfig : string;
  DataDir : string
}.

(** The init provider hands the starting round and the genesis to
    processors and exporter. *)
Record InitProvider := {
  ProviderRound : Z;
  ProviderGenesis : Genesis
}.

(** ** The metadata file *)

(** A file is kept at the level [encoding/json] sees it: a JSON object
    with the fields it has, or bytes the decoder rejects after having
    stored the fields [partial] (none for a syntax error, those decoded
    before and after a mistyped field for a type error), or no bytes. *)
Record doc := {
  docGenesisHash : option string;
  docNetwork : option string;
  docNextRound : option Z
}.

Inductive fileContent :=
| ZeroLength
| Json (d : doc)
| Invalid (partial : doc).

(** [stat.Size()] only matters through its comparison with 0. *)
Definition statSize (c : fileContent) : Z :=
  match c with
  | ZeroLength => 0
  | _ => 1
  end.

Record fs := {
  metadataFile : option fileContent;   (* <data dir>/metadata.json *)
  tempFile : option fileContent        (* <data dir>/metadata.json.temp *)
}.

(** [json.Encode] writes all three fields (no omitempty). *)
Definition jsonEncode (st : state) : doc :=
  {| docGenesisHash := Some (GenesisHash st);
     docNetwork := Some (Network st);
     docNextRound := Some (NextRound st) |}.

Definition orElse {A : Type} (o : option A) (a : A) : A :=
  match o with
  | Some x => x
  | None => a
  end.

(** Decoding stores the fields that are present INTO the given record;
    absent fields keep their value. *)
Definition storeFields (d : doc) (st : state) : state :=
  {| GenesisHash := orElse (docGenesisHash d) (GenesisHash st);
     Network := orElse (docNetwork d) (Network st);
     NextRound := orElse (docNextRound d) (NextRound st) |}.

Definition next_round_fits (d : doc) : bool :=
  match docNextRound d with
  | Some n => (0 <=? n) && (n <? uint64_modulus)
  | None => true
  end.

Definition dropNextRound (d : doc) : doc :=
  {| docGenesisHash := docGenesisHash d;
     docNetwork := docNetwork d;
     docNextRound := None |}.

(** [json.Unmarshal(data, &st)]: the record after the call and the error. *)
Definition jsonUnmarshal (data : fileContent) (st : state) : state * option error :=
  match data with
  | ZeroLength => (st, Some JsonError)
  | Invalid partial => (storeFields partial st, Some JsonError)
  | Json d =>
      if next_round_fits d then (storeFields d st, None)
      else (storeFields (dropNextRound d) st, Some JsonError)
  end.

(** The next-round a metadata file holds, when it holds one. *)
Definition fileNextRound (file : option fileContent) : option Z :=
  match file with
  | Some (Json d) => docNextRound d
  | _ => None
  end.

(** ** Trace *)

(** The metrics of [conduit/metrics] the pipeline touches; [Observe]
    below stands for a histogram's [Observe] and for a gauge's [Set]. *)
Inductive metric :=
| PipelineRetryCount (retry : Z)
| ImporterTimeSeconds
| ProcessorTimeSeconds (name : string)
| ExporterTimeSeconds
| BlockImportTimeSeconds
| ImportedTxnsPerBlock (n : nat)
| ImportedRoundGauge (round : Z)
| ImportedTxns (type : string) (count : nat).

Inductive logMsg :=
| StartingInit
| CreatingProfile (path : string)
| MkdirFailed (e : error)
| OverridingNextRound (from to : Z)
| Initialized (kind name : string)
| RetryCountExceeded (retryCount : Z)
| PipelineRound (round : Z)
| Exported (round : Z) (txns : nat)
| Failure (e : error)                (* Errorf("%v", err) *)
| FailureAt (path : string) (e : error).

Inductive event :=
| LoggerInfof (m : logMsg)
| LoggerErrorf (m : logMsg)
| Observe (m : metric)
| RegisterPrometheusMetrics (prefix : string)
| RegisterPluginMetrics (prefix : string)
| StartMetricsServer (addr : string)
| Sleep (d : Z)
| CallImporterInit (name : string) (cfg : PluginConfig) (r : result Genesis)
| CallProcessorInit (name : string) (cfg : PluginConfig) (e : option error)
| CallExporterInit (name : string) (cfg : PluginConfig) (e : option error)
| CallGetBlock (round : Z) (r : result BlockData)
| CallProcess (name : string) (blk : BlockData) (r : result BlockData)
| CallReceive (blk : BlockData) (e : option error)
| CallOnComplete (index : nat) (blk : BlockData) (e : option error)
| MetadataRemoved                    (* os.Remove succeeded *)
| MetadataReplaced (st : state).     (* os.Rename succeeded *)

(** ** What a trace says *)

(** The rounds asked of the importer. *)
Definition asked (e : event) : list Z :=
  match e with
  | CallGetBlock round _ => [round]
  | _ => []
  end.

(** The blocks handed to the exporter, and those it accepted. *)
Definition handed (e : event) : list BlockData :=
  match e with
  | CallReceive blk _ => [blk]
  | _ => []
  end.
Definition exported (e : event) : list BlockData :=
  match e with
  | CallReceive blk None => [blk]
  | _ => []
  end.

(** The cursor values put in the metadata file. *)
Definition written (e : event) : list Z :=
  match e with
  | MetadataReplaced st => [NextRound st]
  | _ => []
  end.

(** The errors returned by importer, processors, exporter and callbacks. *)
Definition failures (e : event) : list error :=
  match e with
  | CallGetBlock _ (Err e) => [e]
  | CallProcess _ _ (Err e) => [e]
  | CallReceive _ (Some e) => [e]
  | CallOnComplete _ _ (Some e) => [e]
  | _ => []
  end.

(** The observations of the per-stage timing histograms. *)
Definition timings (e : event) : list metric :=
  match e with
  | Observe ImporterTimeSeconds => [ImporterTimeSeconds]
  | Observe (ProcessorTimeSeconds name) => [ProcessorTimeSeconds name]
  | Observe ExporterTimeSeconds => [ExporterTimeSeconds]
  | _ => []
  end.

(** The blocks the importer returned, the processors that returned a
    block, the processors whose time was observed, and what the
    completion callbacks returned. *)
Definition fetched (e : event) : list BlockData :=
  match e with
  | CallGetBlock _ (Ok blk) => [blk]
  | _ => []
  end.
Definition processed (e : event) : list string :=
  match e with
  | CallProcess name _ (Ok _) => [name]
  | _ => []
  end.
Definition processorTimings (e : event) : list string :=
  match e with
  | Observe (ProcessorTimeSeconds name) => [name]
  | _ => []
  end.
Definition completed (e : event) : list (BlockData * option error) :=
  match e with
  | CallOnComplete _ blk e => [(blk, e)]
  | _ => []
  end.

(** The kinds of events the two loops and [addMetrics] append. *)
Definition processorEvent (e : event) : Prop :=
  match e with
  | CallProcess _ _ _ | Observe (ProcessorTimeSeconds _) => True
  | _ => False
  end.
Definition callbackEvent (e : event) : Prop :=
  match e with
  | CallOnComplete _ _ _ => True
  | _ => False
  end.
Definition openingEvent (e : event) : Prop :=
  match e with
  | Observe (PipelineRetryCount _) | Sleep _ | LoggerInfof (PipelineRound _) => True
  | _ => False
  end.
Definition flushEvent (e : event) : Prop :=
  match e with
  | MetadataReplaced _ | LoggerErrorf (Failure _) => True
  | _ => False
  end.
Definition closingEvent (e : event) : Prop :=
  match e with
  | Observe ExporterTimeSeconds
  | Observe BlockImportTimeSeconds | Observe (ImportedTxnsPerBlock _)
  | Observe (ImportedRoundGauge _) | Observe (ImportedTxns _ _) => True
  | _ => False
  end.
Definition quietEvent (e : event) : Prop :=
  match e with
  | LoggerInfof _ | LoggerErrorf _ | RegisterPrometheusMetrics _
  | RegisterPluginMetrics _ | StartMetricsServer _
  | CallImporterInit _ _ _ | CallProcessorInit _ _ _ | CallExporterInit _ _ _ =>
      True
  | _ => False
  end.
Definition loadEvent (e : event) : Prop :=
  match e with
  | MetadataRemoved | MetadataReplaced _ => True
  | _ => False
  end.
Definition blockMetricEvent (e : event) : Prop :=
  match e with
  | Observe BlockImportTimeSeconds | Observe (ImportedTxnsPerBlock _)
  | Observe (ImportedRoundGauge _) | Observe (ImportedTxns _ _) => True
  | _ => False
  end.

(** ** base64.StdEncoding.EncodeToString *)

Definition encodeStd : string :=
  "ABCDEFGHIJKLMNOPQRSTUVWXYZabcdefghijklmnopqrstuvwxyz0123456789+/".

Definition sextet (n : N) : ascii :=
  match String.get (N.to_nat n) encodeStd with
  | Some c => c
  | None => "="%char
  end.

Fixpoint encodeGroups (src : list N) : string :=
  match src with
  | [] => ""
  | [a] =>
      String (sextet (a / 4)) (String (sextet ((a mod 4) * 16)) "==")
  | [a; b] =>
      String (sextet (a / 4))
        (String (sextet ((a mod 4) * 16 + b / 16))
           (String (sextet ((b mod 16) * 4)) "="))
  | a :: b :: c :: rest =>
      String (sextet (a / 4))
        (String (sextet ((a mod 4) * 16 + b / 16))
           (String (sextet ((b mod 16) * 4 + c / 64))
              (String (sextet (c mod 64)) (encodeGroups rest))))
  end%N.

Definition EncodeToString (src : list Byte.byte) : string :=
  encodeGroups (map Byte.to_N src).

(** ** Plugins, runtime and the pipeline object *)

Section Pipeline.

(** The world the plugins and the Go runtime act on: the chain the
    importer reads, the sink of the exporter, the clock, the context. *)
Variable W : Type.

Definition OnCompleteFunc : Type := BlockData -> W -> W * option error.

Record Importer := {
  ImporterName : string;
  ImporterInit : PluginConfig -> W -> W * result Genesis;
  GetBlock : Z -> W -> W * result BlockData;
  ImporterOnComplete : option OnCompleteFunc    (* conduit.Completed *)
}.

Record Processor := {
  ProcessorName : string;
  ProcessorInit : InitProvider -> PluginConfig -> W -> W * option error;
  Process : BlockData -> W -> W * result BlockData;
  ProcessorOnComplete : option OnCompleteFunc
}.

Record Exporter := {
  ExporterName : string;
  ExporterInit : InitProvider -> PluginConfig -> W -> W * option error;
  Receive : BlockData -> W -> W * option error;
  ExporterOnComplete : option OnCompleteFunc
}.

(** What the program uses of the Go runtime and standard library. *)
Record Runtime := {
  ctxDone : W -> bool;                      (* <-p.ctx.Done() is ready *)
  timeSleep : Z -> W -> W;                  (* time.Sleep *)
  ioFault : ioOp -> W -> W * bool;          (* does this call fail now? *)
  pathJoin : string -> string -> string     (* path.Join *)
}.

Variable rt : Runtime.

Record pipelineImpl := {
  cfg : Config;
  profFile : option string;
  err : option error;
  initProvider : option InitProvider;
  importer : Importer;
  processors : list Processor;
  exporter : Exporter;
  completeCallback : list OnCompleteFunc;
  pipelineMetadata : state
}.

(** The pipeline object with its surroundings. *)
Record machine := {
  pipe : pipelineImpl;
  world : W;
  disk : fs;
  trace : list event
}.

Definition withPipe (p : pipelineImpl) (m : machine) : machine :=
  {| pipe := p; world := world m; disk := disk m; trace := trace m |}.
Definition withWorld (w : W) (m : machine) : machine :=
  {| pipe := pipe m; world := w; disk := disk m; trace := trace m |}.
Definition withDisk (d : fs) (m : machine) : machine :=
  {| pipe := pipe m; world := world m; disk := d; trace := trace m |}.
Definition withTrace (t : list event) (m : machine) : machine :=
  {| pipe := pipe m; world := world m; disk := disk m; trace := t |}.

Definition withCfg (c : Config) (p : pipelineImpl) : pipelineImpl :=
  {| cfg := c; profFile := profFile p; err := err p;
     initProvider := initProvider p; importer := importer p;
     processors := processors p; exporter := exporter p;
     completeCallback := completeCallback p;
     pipelineMetadata := pipelineMetadata p |}.
Definition withProfFile (f : option string) (p : pipelineImpl) : pipelineImpl :=
  {| cfg := cfg p; profFile := f; err := err p;
     initProvider := initProvider p; importer := importer p;
     processors := processors p; exporter := exporter p;
     completeCallback := completeCallback p;
     pipelineMetadata := pipelineMetadata p |}.
Definition withErr (e : option error) (p : pipelineImpl) : pipelineImpl :=
  {| cfg := cfg p; profFile := profFile p; err := e;
     initProvider := initProvider p; importer := importer p;
     processors := processors p; exporter := exporter p;
     completeCallback := completeCallback p;
     pipelineMetadata := pipelineMetadata p |}.
Definition withInitProvider (i : option InitProvider) (p : pipelineImpl) : pipelineImpl :=
  {| cfg := cfg p; profFile := profFile p; err := err p;
     initProvider := i; importer := importer p;
     processors := processors p; exporter := exporter p;
     completeCallback := completeCallback p;
     pipelineMetadata := pipelineMetadata p |}.
Definition withCompleteCallback (cbs : list OnCompleteFunc) (p : pipelineImpl) : pipelineImpl :=
  {| cfg := cfg p; profFile := profFile p; err := err p;
     initProvider := initProvider p; importer := importer p;
     processors := processors p; exporter := exporter p;
     completeCallback := cbs;
     pipelineMetadata := pipelineMetadata p |}.
Definition withPipelineMetadata (st : state) (p : pipelineImpl) : pipelineImpl :=
  {| cfg := cfg p; profFile := profFile p; err := err p;
     initProvider := initProvider p; importer := importer p;
     processors := processors p; exporter := exporter p;
     completeCallback := completeCallback p;
     pipelineMetadata := st |}.

Definition withGenesis (gh network : string) (st : state) : state :=
  {| GenesisHash := gh; Network := network; NextRound := NextRound st |}.
Definition withNextRound (n : Z) (st : state) : state :=
  {| GenesisHash := GenesisHash st; Network := Network st; NextRound := n |}.
Definition withPrefix (prefix : string) (c : Config) : Config :=
  {| ConduitArgs := ConduitArgs c; CPUProfile := CPUProfile c;
     PIDFilePath := PIDFilePath c; ImporterConfig := ImporterConfig c;
     ProcessorConfigs := ProcessorConfigs c;
     ExporterConfig := ExporterConfig c;
     MetricsConfig := {| Mode := Mode (MetricsConfig c);
                         Addr := Addr (MetricsConfig c);
                         Prefix := prefix |};
     RetryCount := RetryCount c; RetryDelay := RetryDelay c |}.

(** ** The monad of methods

    A method runs on the machine and either leaves early with an [X] (a
    [return err], a [goto], a [return] out of the goroutine) or goes on
    with an [A]. *)
Definition M (X A : Type) : Type := machine -> machine * (X + A).

Definition ret {X A : Type} (a : A) : M X A := fun m => (m, inr a).
Definition leave {X A : Type} (x : X) : M X A := fun m => (m, inl x).
Definition bind {X A B : Type} (c : M X A) (k : A -> M X B) : M X B :=
  fun m =>
    match c m with
    | (m', inr a) => k a m'
    | (m', inl x) => (m', inl x)
    end.

Notation "x <- c ;; k" := (bind c (fun x => k))
  (at level 61, c at next level, right associativity).
Notation "c ;; k" := (bind c (fun _ => k))
  (at level 61, right associativity).

Definition gets {X A : Type} (f : pipelineImpl -> A) : M X A :=
  fun m => (m, inr (f (pipe m))).
Definition modify {X : Type} (f : pipelineImpl -> pipelineImpl) : M X unit :=
  fun m => (withPipe (f (pipe m)) m, inr tt).
Definition getDisk {X : Type} : M X fs :=
  fun m => (m, inr (disk m)).
Definition putDisk {X : Type} (d : fs) : M X unit :=
  fun m => (withDisk d m, inr tt).
Definition emit {X : Type} (e : event) : M X unit :=
  fun m => (withTrace (trace m ++ [e]) m, inr tt).
(** A call that acts on the world. *)
Definition extern {X A : Type} (f : W -> W * A) : M X A :=
  fun m => let (w, a) := f (world m) in (withWorld w m, inr a).
Definition fails {X : Type} (op : ioOp) : M X bool :=
  extern (ioFault rt op).
(** Run a method that returns an error and look at the error. *)
Definition try {X Y A : Type} (c : M X A) : M Y (X + A) :=
  fun m => let (m', r) := c m in (m', inr r).
Definition when {X : Type} (b : bool) (c : M X unit) : M X unit :=
  if b then c else ret tt.

(** ** Error() and setError *)

Definition Error (m : machine) : option error := err (pipe m).

Definition setError {X : Type} (e : option error) : M X unit :=
  modify (withErr e).

(** ** encodeMetadataToFile *)

Definition encodeMetadataToFile : M error unit :=
  failed <- fails OsCreateTemp ;;
  if failed : bool then
    leave (FmtErrorf "encodeMetadataToFile(): failed to create temp metadata file"
                     (IoError OsCreateTemp))
  else
  d <- getDisk ;;
  putDisk {| metadataFile := metadataFile d; tempFile := Some ZeroLength |} ;;
  failed <- fails JsonEncode ;;
  if failed : bool then
    leave (FmtErrorf "encodeMetadataToFile(): failed to write temp metadata"
                     (IoError JsonEncode))
  else
  st <- gets pipelineMetadata ;;
  putDisk {| metadataFile := metadataFile d;
             tempFile := Some (Json (jsonEncode st)) |} ;;
  failed <- fails OsRename ;;
  if failed : bool then
    leave (FmtErrorf "encodeMetadataToFile(): failed to replace metadata file"
                     (IoError OsRename))
  else
  putDisk {| metadataFile := Some (Json (jsonEncode st)); tempFile := None |} ;;
  emit (MetadataReplaced st).

(** ** initializeOrLoadBlockMetadata *)

(** [os.Stat(metadata.json)]: the size when there is a stat, and the error. *)
Definition osStat {X : Type} : M X (option Z * option error) :=
  failed <- fails OsStat ;;
  if failed : bool then ret (None, Some (IoError OsStat)) else
  d <- getDisk ;;
  match metadataFile d with
  | None => ret (None, Some ErrNotExist)
  | Some c => ret (Some (statSize c), None)
  end.

Definition osReadFile {X : Type} : M X (result fileContent) :=
  failed <- fails OsReadFile ;;
  if failed : bool then ret (Err (IoError OsReadFile)) else
  d <- getDisk ;;
  match metadataFile d with
  | None => ret (Err ErrNotExist)
  | Some c => ret (Ok c)
  end.

Definition isNotExist (e : option error) : bool :=
  match e with
  | Some e => errorsIsNotExist e
  | None => false
  end.

Definition sizeIsZero (stat : option Z) : bool :=
  match stat with
  | Some size => size =? 0
  | None => false
  end.

Definition initializeOrLoadBlockMetadata : M error state :=
  s <- osStat ;;
  let '(stat, err) := s in
  (if isNotExist err || sizeIsZero stat then
     (if sizeIsZero stat then
        failed <- fails OsRemove ;;
        if failed : bool then
          leave (FmtErrorf "Init(): error creating file" (IoError OsRemove))
        else
        d <- getDisk ;;
        putDisk {| metadataFile := None; tempFile := tempFile d |} ;;
        emit MetadataRemoved
      else ret tt) ;;
     r <- try encodeMetadataToFile ;;
     match r with
     | inl e => leave (FmtErrorf "Init(): error creating file" e)
     | inr _ => ret tt
     end
   else
     match err with
     | Some e => leave (FmtErrorf "error opening file" e)
     | None =>
         data <- osReadFile ;;
         match data with
         | Err e => leave (FmtErrorf "error reading metadata" e)
         | Ok data =>
             st <- gets pipelineMetadata ;;
             let (st', uerr) := jsonUnmarshal data st in
             modify (withPipelineMetadata st') ;;
             match uerr with
             | Some e => leave (FmtErrorf "error reading metadata" e)
             | None => ret tt
             end
         end
     end) ;;
  gets pipelineMetadata.

(** ** Init *)

(** [yaml.Marshal] of a plugin configuration, kept serialized in [Config]. *)
Definition yamlMarshal {X : Type} (config : string) : M X (result string) :=
  failed <- fails YamlMarshal ;;
  if failed : bool then ret (Err (IoError YamlMarshal)) else ret (Ok config).

Definition makeConfig {X : Type} (pluginType pluginName config : string)
  : M X PluginConfig :=
  c <- gets cfg ;;
  let dataDir := pathJoin rt (ConduitDataDir (ConduitArgs c))
                          (pluginType ++ "_" ++ pluginName) in
  failed <- fails OsMkdirAll ;;
  if failed : bool then
    emit (LoggerErrorf (MkdirFailed (IoError OsMkdirAll))) ;;
    ret {| PluginConfigConfig := config; DataDir := "" |}
  else ret {| PluginConfigConfig := config; DataDir := dataDir |}.

Definition callbackOf (v : option OnCompleteFunc) : list OnCompleteFunc :=
  match v with
  | Some onComplete => [onComplete]
  | None => []
  end.

Definition registerLifecycleCallbacks {X : Type} : M X unit :=
  modify (fun p =>
    withCompleteCallback
      (completeCallback p
         ++ callbackOf (ImporterOnComplete (importer p))
         ++ flat_map (fun proc => callbackOf (ProcessorOnComplete proc))
                     (processors p)
         ++ callbackOf (ExporterOnComplete (exporter p))) p).

Fixpoint initProcessors (idx : nat) (procs : list Processor) : M error unit :=
  match procs with
  | [] => ret tt
  | processor :: rest =>
      c <- gets cfg ;;
      configs <- yamlMarshal (nth idx (ProcessorConfigs c) "") ;;
      match configs with
      | Err e =>
          leave (FmtErrorf "Pipeline.Start(): could not serialize Processors[idx].Args " e)
      | Ok configs =>
          let processorName := ProcessorName processor in
          pc <- makeConfig "processor" processorName configs ;;
          ip <- gets initProvider ;;
          match ip with
          | None => ret tt        (* unreachable: set before the loop *)
          | Some ip =>
              e <- extern (ProcessorInit processor ip pc) ;;
              emit (CallProcessorInit processorName pc e) ;;
              match e with
              | Some e =>
                  leave (FmtErrorf ("Pipeline.Init(): could not initialize processor ("
                                      ++ processorName ++ ")") e)
              | None =>
                  emit (LoggerInfof (Initialized "Processor" processorName)) ;;
                  initProcessors (S idx) rest
              end
          end
      end
  end.

(** [Init] is written in its four phases: what comes before the
    importer, the importer, the metadata, and the remaining stages. *)

(** Metrics prefix, CPU profile, PID file. *)
Definition initProfiling : M error unit :=
  emit (LoggerInfof StartingInit) ;;
  c <- gets cfg ;;
  when (Prefix (MetricsConfig c) =? "")%string
       (modify (withCfg (withPrefix DefaultMetricsPrefix c))) ;;
  c <- gets cfg ;;
  emit (RegisterPrometheusMetrics (Prefix (MetricsConfig c))) ;;
  (if negb (CPUProfile c =? "")%string then
     emit (LoggerInfof (CreatingProfile (CPUProfile c))) ;;
     failed <- fails OsCreateProfile ;;
     if failed : bool then
       emit (LoggerErrorf (FailureAt (CPUProfile c) (IoError OsCreateProfile))) ;;
       leave (IoError OsCreateProfile)
     else
     modify (withProfFile (Some (CPUProfile c))) ;;
     failed <- fails PprofStartCPUProfile ;;
     if failed : bool then
       emit (LoggerErrorf (FailureAt (CPUProfile c) (IoError PprofStartCPUProfile))) ;;
       leave (IoError PprofStartCPUProfile)
     else ret tt
   else ret tt) ;;
  (if negb (PIDFilePath c =? "")%string then
     failed <- fails CreateIndexerPidFile ;;
     if failed : bool then leave (IoError CreateIndexerPidFile) else ret tt
   else ret tt).

(** Initialize Importer *)
Definition initImporter : M error Genesis :=
  c <- gets cfg ;;
  imp <- gets importer ;;
  let importerName := ImporterName imp in
  configs <- yamlMarshal (ImporterConfig c) ;;
  match configs with
  | Err e => leave (FmtErrorf "Pipeline.Start(): could not serialize Importer.Args" e)
  | Ok configs =>
      pc <- makeConfig "importer" importerName configs ;;
      genesis <- extern (ImporterInit imp pc) ;;
      emit (CallImporterInit importerName pc genesis) ;;
      match genesis with
      | Err e =>
          leave (FmtErrorf ("Pipeline.Start(): could not initialize importer ("
                              ++ importerName ++ ")") e)
      | Ok genesis => ret genesis
      end
  end.

(** initialize or load pipeline metadata, check the genesis hash, apply
    the override *)
Definition initMetadata (genesis : Genesis) : M error unit :=
  let gh := Hash genesis in
  let ghbase64 := EncodeToString gh in
  modify (fun p => withPipelineMetadata
                     (withGenesis ghbase64 (GenesisNetwork genesis)
                                  (pipelineMetadata p)) p) ;;
  loaded <- try initializeOrLoadBlockMetadata ;;
  match loaded with
  | inl e => leave (FmtErrorf "Pipeline.Start(): could not read metadata" e)
  | inr st =>
      modify (withPipelineMetadata st) ;;
      if negb (GenesisHash st =? ghbase64)%string then
        leave (GenesisMismatch gh (GenesisHash st))
      else
      (* overriding NextRound if NextRoundOverride is set *)
      c <- gets cfg ;;
      when (NextRoundOverride (ConduitArgs c) >? 0)
           (emit (LoggerInfof (OverridingNextRound
                                 (NextRound st)
                                 (NextRoundOverride (ConduitArgs c)))) ;;
            modify (withPipelineMetadata
                      (withNextRound (NextRoundOverride (ConduitArgs c)) st)))
  end.

(** InitProvider, processors, exporter, callbacks, metrics server *)
Definition initStages (genesis : Genesis) : M error unit :=
  c <- gets cfg ;;
  imp <- gets importer ;;
  emit (LoggerInfof (Initialized "Importer" (ImporterName imp))) ;;
  (* InitProvider *)
  st <- gets pipelineMetadata ;;
  let ip := {| ProviderRound := NextRound st; ProviderGenesis := genesis |} in
  modify (withInitProvider (Some ip)) ;;
  (* Initialize Processors *)
  procs <- gets processors ;;
  initProcessors 0 procs ;;
  (* Initialize Exporter *)
  exp <- gets exporter ;;
  configs <- yamlMarshal (ExporterConfig c) ;;
  match configs with
  | Err e => leave (FmtErrorf "Pipeline.Start(): could not serialize Exporter.Args " e)
  | Ok configs =>
      let exporterName := ExporterName exp in
      pc <- makeConfig "exporter" exporterName configs ;;
      e <- extern (ExporterInit exp ip pc) ;;
      emit (CallExporterInit exporterName pc e) ;;
      match e with
      | Some e =>
          leave (FmtErrorf ("Pipeline.Start(): could not initialize Exporter ("
                              ++ exporterName ++ ")") e)
      | None =>
          emit (LoggerInfof (Initialized "Exporter" exporterName)) ;;
          (* Register callbacks. *)
          registerLifecycleCallbacks ;;
          (* start metrics server *)
          when (Mode (MetricsConfig c) =? "ON")%string
               (emit (RegisterPluginMetrics (Prefix (MetricsConfig c))) ;;
                emit (StartMetricsServer (Addr (MetricsConfig c))))
      end
  end.

(** Init prepares the pipeline for processing block data *)
Definition Init : M error unit :=
  initProfiling ;;
  genesis <- initImporter ;;
  initMetadata genesis ;;
  initStages genesis.

(** ** Start *)

Definition emitAll {X : Type} (es : list event) : M X unit :=
  fun m => (withTrace (trace m ++ es) m, inr tt).

(** The per-type gauges are set in the order of first occurrence (Go
    ranges over the map in no fixed order). *)
Definition addMetrics {X : Type} (block : BlockData) : M X unit :=
  emit (Observe BlockImportTimeSeconds) ;;
  emit (Observe (ImportedTxnsPerBlock (List.length (Payset block)))) ;;
  emit (Observe (ImportedRoundGauge (Round block))) ;;
  emitAll (map (fun k => Observe (ImportedTxns k (count_occ string_dec (Payset block) k)))
               (nodup string_dec (Payset block))).

(** Where control goes when an attempt is cut short. *)
Inductive next :=
| PipelineRun (retry : Z)     (* goto pipelineRun, with this value of retry *)
| Return.                     (* return: the goroutine ends *)

(** [retry++] on a uint64 *)
Definition incr (retry : Z) : Z := wrap64 (retry + 1).

(** for _, proc := range p.processors *)
Fixpoint runProcessors (retry : Z) (procs : list Processor) (blkData : BlockData)
  : M next BlockData :=
  match procs with
  | [] => ret blkData
  | proc :: rest =>
      r <- extern (Process proc blkData) ;;
      emit (CallProcess (ProcessorName proc) blkData r) ;;
      match r with
      | Err e =>
          emit (LoggerErrorf (Failure e)) ;;
          setError (Some e) ;;
          leave (PipelineRun (incr retry))
      | Ok blkData =>
          emit (Observe (ProcessorTimeSeconds (ProcessorName proc))) ;;
          runProcessors retry rest blkData
      end
  end.

(** for _, cb := range p.completeCallback *)
Fixpoint runCallbacks (retry : Z) (index : nat) (cbs : list OnCompleteFunc)
  (blkData : BlockData) : M next unit :=
  match cbs with
  | [] => ret tt
  | cb :: rest =>
      e <- extern (cb blkData) ;;
      emit (CallOnComplete index blkData e) ;;
      match e with
      | Some e =>
          emit (LoggerErrorf (Failure e)) ;;
          setError (Some e) ;;
          leave (PipelineRun (incr retry))
      | None => runCallbacks retry (S index) rest blkData
      end
  end.

(** One pass from the label [pipelineRun] to a [goto pipelineRun], a
    [return], or the end of the loop body; the result is the value of
    [retry] the next turn of the [for] loop starts with. *)
Definition pipelineRun (retry : Z) : M next Z :=
  emit (Observe (PipelineRetryCount retry)) ;;
  c <- gets cfg ;;
  if retry >? RetryCount c then
    emit (LoggerErrorf (RetryCountExceeded (RetryCount c))) ;;
    leave Return
  else
  when (retry >? 0)
       (emit (Sleep (RetryDelay c)) ;;
        extern (fun w => (timeSleep rt (RetryDelay c) w, tt))) ;;
  done <- extern (fun w => (w, ctxDone rt w)) ;;
  if done : bool then leave Return else
  st <- gets pipelineMetadata ;;
  emit (LoggerInfof (PipelineRound (NextRound st))) ;;
  (* fetch block *)
  imp <- gets importer ;;
  r <- extern (GetBlock imp (NextRound st)) ;;
  emit (CallGetBlock (NextRound st) r) ;;
  match r with
  | Err e =>
      emit (LoggerErrorf (Failure e)) ;;
      setError (Some e) ;;
      leave (PipelineRun (incr retry))
  | Ok blkData =>
  emit (Observe ImporterTimeSeconds) ;;
  (* run through processors *)
  procs <- gets processors ;;
  blkData <- runProcessors retry procs blkData ;;
  (* run through exporter *)
  exp <- gets exporter ;;
  e <- extern (Receive exp blkData) ;;
  emit (CallReceive blkData e) ;;
  match e with
  | Some e =>
      emit (LoggerErrorf (Failure e)) ;;
      setError (Some e) ;;
      leave (PipelineRun (incr retry))
  | None =>
  emit (LoggerInfof (Exported (NextRound st) (List.length (Payset blkData)))) ;;
  (* Increment Round, update metadata *)
  modify (withPipelineMetadata (withNextRound (wrap64 (NextRound st + 1)) st)) ;;
  e <- try encodeMetadataToFile ;;
  match e with
  | inl e => emit (LoggerErrorf (Failure e))
  | inr _ => ret tt
  end ;;
  (* Callback Processors *)
  cbs <- gets completeCallback ;;
  runCallbacks retry 0 cbs blkData ;;
  emit (Observe ExporterTimeSeconds) ;;
  (* Ignore round 0 (which is empty). *)
  st <- gets pipelineMetadata ;;
  when (NextRound st >? 1) (addMetrics blkData) ;;
  setError None ;;
  ret 0
  end end.

(** The goroutine of [Start]: running with a value of [retry], or gone. *)
Inductive goroutine :=
| Running (retry : Z)
| Returned.

Definition turn (g : goroutine) (m : machine) : machine * goroutine :=
  match g with
  | Returned => (m, Returned)
  | Running retry =>
      match pipelineRun retry m with
      | (m', inr retry') => (m', Running retry')
      | (m', inl (PipelineRun retry')) => (m', Running retry')
      | (m', inl Return) => (m', Returned)
      end
  end.

Fixpoint turns (n : nat) (g : goroutine) (m : machine) : machine * goroutine :=
  match n with
  | O => (m, g)
  | S n => let (m', g') := turn g m in turns n g' m'
  end.

(** [Start]: [retry := uint64(0)], then the loop, here for [n] turns. *)
Definition Start (n : nat) (m : machine) : machine * goroutine :=
  turns n (Running 0) m.

(** ** The passes of the worker, seen from outside

    What one call of [pipelineRun] does to the world and to the disk, and
    the events it appends.  These are the paths through the loop body:
    they are proved to be all there is ([pipelineRun_pass]). *)

(** The events appended between two machines of one run. *)
Definition since (m m' : machine) : list event :=
  skipn (List.length (trace m)) (trace m').

(** The processors' calls on a block, up to the first error. *)
Fixpoint processAll (procs : list Processor) (blkData : BlockData) (w : W)
  : W * list event * result BlockData :=
  match procs with
  | [] => (w, [], Ok blkData)
  | proc :: rest =>
      let (w', r) := Process proc blkData w in
      match r with
      | Err e => (w', [CallProcess (ProcessorName proc) blkData r], Err e)
      | Ok blkData' =>
          let '(w'', evs, r') := processAll rest blkData' w' in
          (w'',
           CallProcess (ProcessorName proc) blkData r
             :: Observe (ProcessorTimeSeconds (ProcessorName proc)) :: evs,
           r')
      end
  end.

(** The completion callbacks' calls, up to the first error. *)
Fixpoint completeAll (index : nat) (cbs : list OnCompleteFunc)
  (blkData : BlockData) (w : W) : W * list event * option error :=
  match cbs with
  | [] => (w, [], None)
  | cb :: rest =>
      let (w', e) := cb blkData w in
      match e with
      | Some e' => (w', [CallOnComplete index blkData e], Some e')
      | None =>
          let '(w'', evs, e'') := completeAll (S index) rest blkData w' in
          (w'', CallOnComplete index blkData e :: evs, e'')
      end
  end.

(** [encodeMetadataToFile] of the record [st], on world and disk. *)
Definition replaceMetadata (st : state) (d : fs) (w : W)
  : W * fs * list event * option error :=
  let (w1, failed1) := ioFault rt OsCreateTemp w in
  if failed1 then
    (w1, d, [],
     Some (FmtErrorf "encodeMetadataToFile(): failed to create temp metadata file"
                     (IoError OsCreateTemp)))
  else
  let (w2, failed2) := ioFault rt JsonEncode w1 in
  if failed2 then
    (w2, {| metadataFile := metadataFile d; tempFile := Some ZeroLength |}, [],
     Some (FmtErrorf "encodeMetadataToFile(): failed to write temp metadata"
                     (IoError JsonEncode)))
  else
  let (w3, failed3) := ioFault rt OsRename w2 in
  if failed3 then
    (w3, {| metadataFile := metadataFile d;
            tempFile := Some (Json (jsonEncode st)) |}, [],
     Some (FmtErrorf "encodeMetadataToFile(): failed to replace metadata file"
                     (IoError OsRename)))
  else
    (w3, {| metadataFile := Some (Json (jsonEncode st)); tempFile := None |},
     [MetadataReplaced st], None).

Definition flushLog (e : option error) : list event :=
  match e with
  | Some e => [LoggerErrorf (Failure e)]
  | None => []
  end.

(** The head of every pass, the nap before a retry, and the world after it. *)
Definition nap (retry : Z) (c : Config) : list event :=
  if retry >? 0 then [Sleep (RetryDelay c)] else [].
Definition rested (retry : Z) (c : Config) (w : W) : W :=
  if retry >? 0 then timeSleep rt (RetryDelay c) w else w.
Definition opening (retry : Z) (m : machine) : list event :=
  Observe (PipelineRetryCount retry) :: nap retry (cfg (pipe m))
    ++ [LoggerInfof (PipelineRound (NextRound (pipelineMetadata (pipe m))))].

Definition advanced (st : state) : state :=
  withNextRound (wrap64 (NextRound st + 1)) st.

Definition blockMetrics (block : BlockData) : list event :=
  [Observe BlockImportTimeSeconds;
   Observe (ImportedTxnsPerBlock (List.length (Payset block)));
   Observe (ImportedRoundGauge (Round block))]
  ++ map (fun k => Observe (ImportedTxns k (count_occ string_dec (Payset block) k)))
         (nodup string_dec (Payset block)).

Definition closing (st : state) (block : BlockData) : list event :=
  Observe ExporterTimeSeconds
    :: (if NextRound st >? 1 then blockMetrics block else []).

Definition mk (p : pipelineImpl) (w : W) (d : fs) (t : list event) : machine :=
  {| pipe := p; world := w; disk := d; trace := t |}.

Inductive pass (retry : Z) (m : machine)
  : machine -> next + Z -> list event -> Prop :=
| PassExhausted evs :
    (retry >? RetryCount (cfg (pipe m))) = true ->
    evs = [Observe (PipelineRetryCount retry);
           LoggerErrorf (RetryCountExceeded (RetryCount (cfg (pipe m))))] ->
    pass retry m (mk (pipe m) (world m) (disk m) (trace m ++ evs)%list)
         (inl Return) evs
| PassCancelled w evs :
    (retry >? RetryCount (cfg (pipe m))) = false ->
    w = rested retry (cfg (pipe m)) (world m) ->
    ctxDone rt w = true ->
    evs = Observe (PipelineRetryCount retry) :: nap retry (cfg (pipe m)) ->
    pass retry m (mk (pipe m) w (disk m) (trace m ++ evs)%list) (inl Return) evs
| PassImporterFailed w w' e evs :
    (retry >? RetryCount (cfg (pipe m))) = false ->
    w = rested retry (cfg (pipe m)) (world m) ->
    ctxDone rt w = false ->
    GetBlock (importer (pipe m)) (NextRound (pipelineMetadata (pipe m))) w
      = (w', Err e) ->
    evs = (opening retry m
            ++ [CallGetBlock (NextRound (pipelineMetadata (pipe m))) (Err e);
                LoggerErrorf (Failure e)])%list ->
    pass retry m (mk (withErr (Some e) (pipe m)) w' (disk m) (trace m ++ evs)%list)
         (inl (PipelineRun (incr retry))) evs
| PassProcessorFailed w w' blk w'' pevs e evs :
    (retry >? RetryCount (cfg (pipe m))) = false ->
    w = rested retry (cfg (pipe m)) (world m) ->
    ctxDone rt w = false ->
    GetBlock (importer (pipe m)) (NextRound (pipelineMetadata (pipe m))) w
      = (w', Ok blk) ->
    processAll (processors (pipe m)) blk w' = (w'', pevs, Err e) ->
    evs = (opening retry m
            ++ [CallGetBlock (NextRound (pipelineMetadata (pipe m))) (Ok blk);
                Observe ImporterTimeSeconds]
            ++ pevs ++ [LoggerErrorf (Failure e)])%list ->
    pass retry m (mk (withErr (Some e) (pipe m)) w'' (disk m) (trace m ++ evs)%list)
         (inl (PipelineRun (incr retry))) evs
| PassExporterFailed w w' blk w'' pevs blk' w3 e evs :
    (retry >? RetryCount (cfg (pipe m))) = false ->
    w = rested retry (cfg (pipe m)) (world m) ->
    ctxDone rt w = false ->
    GetBlock (importer (pipe m)) (NextRound (pipelineMetadata (pipe m))) w
      = (w', Ok blk) ->
    processAll (processors (pipe m)) blk w' = (w'', pevs, Ok blk') ->
    Receive (exporter (pipe m)) blk' w'' = (w3, Some e) ->
    evs = (opening retry m
            ++ [CallGetBlock (NextRound (pipelineMetadata (pipe m))) (Ok blk);
                Observe ImporterTimeSeconds]
            ++ pevs
            ++ [CallReceive blk' (Some e); LoggerErrorf (Failure e)])%list ->
    pass retry m (mk (withErr (Some e) (pipe m)) w3 (disk m) (trace m ++ evs)%list)
         (inl (PipelineRun (incr retry))) evs
| PassCallbackFailed w w' blk w'' pevs blk' w3 w4 d fevs ferr w5 cevs e evs :
    (retry >? RetryCount (cfg (pipe m))) = false ->
    w = rested retry (cfg (pipe m)) (world m) ->
    ctxDone rt w = false ->
    GetBlock (importer (pipe m)) (NextRound (pipelineMetadata (pipe m))) w
      = (w', Ok blk) ->
    processAll (processors (pipe m)) blk w' = (w'', pevs, Ok blk') ->
    Receive (exporter (pipe m)) blk' w'' = (w3, None) ->
    replaceMetadata (advanced (pipelineMetadata (pipe m))) (disk m) w3
      = (w4, d, fevs, ferr) ->
    completeAll 0 (completeCallback (pipe m)) blk' w4 = (w5, cevs, Some e) ->
    evs = (opening retry m
            ++ [CallGetBlock (NextRound (pipelineMetadata (pipe m))) (Ok blk);
                Observe ImporterTimeSeconds]
            ++ pevs
            ++ [CallReceive blk' None;
                LoggerInfof (Exported (NextRound (pipelineMetadata (pipe m)))
                                      (List.length (Payset blk')))]
            ++ fevs ++ flushLog ferr
            ++ cevs ++ [LoggerErrorf (Failure e)])%list ->
    pass retry m
         (mk (withErr (Some e)
                (withPipelineMetadata (advanced (pipelineMetadata (pipe m)))
                                      (pipe m)))
             w5 d (trace m ++ evs)%list)
         (inl (PipelineRun (incr retry))) evs
| PassCompleted w w' blk w'' pevs blk' w3 w4 d fevs ferr w5 cevs evs :
    (retry >? RetryCount (cfg (pipe m))) = false ->
    w = rested retry (cfg (pipe m)) (world m) ->
    ctxDone rt w = false ->
    GetBlock (importer (pipe m)) (NextRound (pipelineMetadata (pipe m))) w
      = (w', Ok blk) ->
    processAll (processors (pipe m)) blk w' = (w'', pevs, Ok blk') ->
    Receive (exporter (pipe m)) blk' w'' = (w3, None) ->
    replaceMetadata (advanced (pipelineMetadata (pipe m))) (disk m) w3
      = (w4, d, fevs, ferr) ->
    completeAll 0 (completeCallback (pipe m)) blk' w4 = (w5, cevs, None) ->
    evs = (opening retry m
            ++ [CallGetBlock (NextRound (pipelineMetadata (pipe m))) (Ok blk);
                Observe ImporterTimeSeconds]
            ++ pevs
            ++ [CallReceive blk' None;
                LoggerInfof (Exported (NextRound (pipelineMetadata (pipe m)))
                                      (List.length (Payset blk')))]
            ++ fevs ++ flushLog ferr
            ++ cevs ++ closing (advanced (pipelineMetadata (pipe m))) blk')%list ->
    pass retry m
         (mk (withErr None
                (withPipelineMetadata (advanced (pipelineMetadata (pipe m)))
                                      (pipe m)))
             w5 d (trace m ++ evs)%list)
         (inr 0) evs.

(** ** Stages that always fail *)

Inductive stage :=
| ImporterStage
| ProcessorStage (n : nat)
| ExporterStage.

Definition importerServes (p : pipelineImpl) : Prop :=
  forall round w, exists w' blk, GetBlock (importer p) round w = (w', Ok blk).

Definition processorServes (proc : Processor) : Prop :=
  forall blk w, exists w' blk', Process proc blk w = (w', Ok blk').

(** Stage [s] returns the error [e] on every invocation, and the stages
    before it return a block on every invocation. *)
Definition failsAlways (p : pipelineImpl) (s : stage) (e : error) : Prop :=
  match s with
  | ImporterStage =>
      forall round w, exists w', GetBlock (importer p) round w = (w', Err e)
  | ProcessorStage n =>
      importerServes p
      /\ exists before proc after,
           processors p = (before ++ proc :: after)%list
           /\ List.length before = n
           /\ Forall processorServes before
           /\ forall blk w, exists w', Process proc blk w = (w', Err e)
  | ExporterStage =>
      importerServes p
      /\ Forall processorServes (processors p)
      /\ forall blk w, exists w', Receive (exporter p) blk w = (w', Some e)
  end.

(** ** Notions used to state the facts *)

(** The errors of [encodeMetadataToFile]. *)
Definition flushError (e : error) : Prop :=
  exists prefix op, e = FmtErrorf prefix (IoError op).

(** [m'] comes after [m] in a run: its trace prolongs that of [m]. *)
Definition extends (m m' : machine) : Prop :=
  exists evs, trace m' = (trace m ++ evs)%list.

(** No call to the operating system fails. *)
Definition faultFree : Prop := forall op w, snd (ioFault rt op w) = false.

(** A step of [Init] that touches neither the disk nor the cursor and
    calls no stage. *)
Definition quiet (m m' : machine) : Prop :=
  extends m m'
  /\ disk m' = disk m
  /\ pipelineMetadata (pipe m') = pipelineMetadata (pipe m)
  /\ importer (pipe m') = importer (pipe m)
  /\ ConduitArgs (cfg (pipe m')) = ConduitArgs (cfg (pipe m))
  /\ Forall quietEvent (since m m').

(** The machine once the importer's genesis is stored in the record. *)
Definition withImporterGenesis (g : Genesis) (m : machine) : machine :=
  withPipe (withPipelineMetadata
              (withGenesis (EncodeToString (Hash g)) (GenesisNetwork g)
                           (pipelineMetadata (pipe m)))
              (pipe m)) m.

(** The record after the NextRoundOverride has been looked at. *)
Definition overridden (c : Config) (st : state) : state :=
  if NextRoundOverride (ConduitArgs c) >? 0
  then withNextRound (NextRoundOverride (ConduitArgs c)) st
  else st.

End Pipeline.

Arguments ret {W X A} a m.
Arguments leave {W X A} x m.
Arguments bind {W X A B} c k m.

(** ** A laboratory world

    A concrete world for running the pipeline: a clock, the instant the
    context is cancelled, and the rounds the exporter has accepted. *)

Record Lab := {
  clock : Z;
  cancelAt : option Z;
  received : list Z
}.

Definition labSleep (d : Z) (w : Lab) : Lab :=
  {| clock := clock w + Z.max 0 d; cancelAt := cancelAt w; received := received w |}.

Definition labDone (w : Lab) : bool :=
  match cancelAt w with
  | Some t => t <=? clock w
  | None => false
  end.

(** [faulty] tells which operating system calls fail; a context that is
    not [cancellable] is never done. *)
Definition labRuntime (faulty : ioOp -> bool) (cancellable : bool) : Runtime Lab :=
  {| ctxDone := fun w => cancellable && labDone w;
     timeSleep := labSleep;
     ioFault := fun op w => (w, faulty op);
     pathJoin := fun dir name => dir ++ "/" ++ name |}.

Definition noFault (_ : ioOp) : bool := false.

Definition labGenesis (hash : list Byte.byte) : Genesis :=
  {| Hash := hash; GenesisNetwork := "testnet" |}.

Definition hashA : list Byte.byte := repeat Byte.x0a 32.
Definition hashB : list Byte.byte := repeat Byte.x0b 32.

Definition blockOf (round : Z) : BlockData := {| Round := round; Payset := [] |}.

(** An importer that serves every round except those in [failing]; a
    call takes [latency] on the clock. *)
Definition labImporter (hash : list Byte.byte) (failing : Z -> bool)
  (latency : Z) : Importer Lab :=
  {| ImporterName := "lab";
     ImporterInit := fun _ w => (w, Ok (labGenesis hash));
     GetBlock := fun round w =>
       (labSleep latency w,
        if failing round then Err (PluginError "importer")
        else Ok (blockOf round));
     ImporterOnComplete := None |}.

(** An exporter that records the rounds it accepts and rejects those in
    [failing]; its completion callback errors on the rounds in [sour]. *)
Definition labExporter (failing sour : Z -> bool) : Exporter Lab :=
  {| ExporterName := "lab";
     ExporterInit := fun _ _ w => (w, None);
     Receive := fun blk w =>
       if failing (Round blk) then (w, Some (PluginError "exporter"))
       else ({| clock := clock w; cancelAt := cancelAt w;
                received := received w ++ [Round blk] |}, None);
     ExporterOnComplete := Some (fun blk w =>
       if sour (Round blk) then (w, Some (PluginError "oncomplete"))
       else (w, None)) |}.

Definition labConfig (override retryCount retryDelay : Z) : Config :=
  {| ConduitArgs := {| ConduitDataDir := "data"; NextRoundOverride := override |};
     CPUProfile := ""; PIDFilePath := "";
     ImporterConfig := ""; ProcessorConfigs := []; ExporterConfig := "";
     MetricsConfig := {| Mode := "OFF"; Addr := ""; Prefix := "" |};
     RetryCount := retryCount; RetryDelay := retryDelay |}.

Definition never (_ : Z) : bool := false.
Definition always (_ : Z) : bool := true.

(** A constructed pipeline, as [MakePipeline] leaves it. *)
Definition labPipeline (c : Config) (imp : Importer Lab) (exp : Exporter Lab)
  : pipelineImpl Lab :=
  {| cfg := c; profFile := None; err := None; initProvider := None;
     importer := imp; processors := []; exporter := exp;
     completeCallback := [];
     pipelineMetadata := {| GenesisHash := ""; Network := ""; NextRound := 0 |} |}.

Definition labMachine (p : pipelineImpl Lab) (file : option fileContent) : machine Lab :=
  {| pipe := p;
     world := {| clock := 0; cancelAt := None; received := [] |};
     disk := {| metadataFile := file; tempFile := None |};
     trace := [] |}.

(** The cursor file a run with genesis [hash] leaves at [round]. *)
Definition cursorFile (hash : list Byte.byte) (round : Z) : fileContent :=
  Json {| docGenesisHash := Some (EncodeToString hash);
          docNetwork := Some "testnet";
          docNextRound := Some round |}.

Definition cancelledAt (t : Z) (m : machine Lab) : machine Lab :=
  withWorld {| clock := clock (world m); cancelAt := Some t;
               received := received (world m) |} m.

(** A context that is never cancelled, and one that can be. *)
Definition background : Runtime Lab := labRuntime noFault false.
Definition cancellable : Runtime Lab := labRuntime noFault true.

(** The runtime in which the rename of the temp file fails. *)
Definition renameFails (op : ioOp) : bool :=
  match op with
  | OsRename => true
  | _ => false
  end.
Definition readOnly : Runtime Lab := labRuntime renameFails false.

(** The machine [Init] leaves. *)
Definition ready (rt : Runtime Lab) (m : machine Lab) : machine Lab :=
  fst (Init rt m).

(** The machine after one pass, and after [n] turns of the worker. *)
Definition afterPass (rt : Runtime Lab) (retry : Z) (m : machine Lab) : machine Lab :=
  fst (pipelineRun rt retry m).
Definition afterTurns (rt : Runtime Lab) (n : nat) (m : machine Lab) : machine Lab :=
  fst (Start rt n m).

(** Scenario 1: rounds from 0, no processors, nothing on disk. *)
Definition scenario1 : machine Lab :=
  labMachine (labPipeline (labConfig 0 5 10) (labImporter hashA never 0)
                          (labExporter never never))
             None.

(** Scenario 2: the cursor file of genesis A at round 5, an importer
    reporting genesis B. *)
Definition scenario2 : machine Lab :=
  labMachine (labPipeline (labConfig 0 5 10) (labImporter hashB never 0)
                          (labExporter never never))
             (Some (cursorFile hashA 5)).

(** Scenario 4: the exporter fails permanently, RetryCount is 2, the
    cursor is at round 3. *)
Definition scenario4 : machine Lab :=
  labMachine (labPipeline (labConfig 0 2 10) (labImporter hashA never 0)
                          (labExporter always never))
             (Some (cursorFile hashA 3)).

(** Scenario 5: next-round 100 on disk, NextRoundOverride 50. *)
Definition scenario5 : machine Lab :=
  labMachine (labPipeline (labConfig 50 5 10) (labImporter hashA never 0)
                          (labExporter never never))
             (Some (cursorFile hashA 100)).

(** Scenario 6: the importer fails after 5 ticks, RetryDelay is 1000, and
    the context is cancelled at tick 5, as the retry sleep begins. *)
Definition scenario6 : machine Lab :=
  cancelledAt 5
    (labMachine (labPipeline (labConfig 0 5 1000) (labImporter hashA always 5)
                             (labExporter never never))
                (Some (cursorFile hashA 0))).

(** Scenario 7: a completion callback errors on round 4. *)
Definition scenario7 : machine Lab :=
  labMachine (labPipeline (labConfig 0 5 10) (labImporter hashA never 0)
                          (labExporter never (Z.eqb 4)))
             (Some (cursorFile hashA 4)).

(** The cursor two rounds before the largest uint64. *)
Definition nearWrapAround : machine Lab :=
  labMachine (labPipeline (labConfig 0 5 10) (labImporter hashA never 0)
                          (labExporter never never))
             (Some (cursorFile hashA (MaxUint64 - 1))).

(** The largest retry budget, and an importer that always fails. *)
Definition unboundedRetries : machine Lab :=
  labMachine (labPipeline (labConfig 0 MaxUint64 0) (labImporter hashA always 0)
                          (labExporter never never))
             (Some (cursorFile hashA 0)).

(** * Facts *)

Example EncodeToString_Man :
  EncodeToString [Byte.x4d; Byte.x61; Byte.x6e] = "TWFu".
Proof. reflexivity. Qed.

Example EncodeToString_padding :
  EncodeToString [Byte.x4d; Byte.x61] = "TWE="
  /\ EncodeToString [Byte.x4d] = "TQ=="
  /\ EncodeToString [Byte.xff; Byte.xfe; Byte.x00; Byte.x10] = "//4AEA==".
Proof. repeat split. Qed.

Section Facts.

Variable W : Type.
Variable rt : Runtime W.

Lemma machine_eta (m : machine W) :
  mk (pipe m) (world m) (disk m) (trace m) = m.
Proof. destruct m; reflexivity. Qed.

(** *** The loops act as their outside view says *)

Lemma runProcessors_processAll retry procs blk (m : machine W) :
  runProcessors retry procs blk m =
  match processAll procs blk (world m) with
  | (w, evs, Ok blk') => (mk (pipe m) w (disk m) (trace m ++ evs)%list, inr blk')
  | (w, evs, Err e) =>
      (mk (withErr (Some e) (pipe m)) w (disk m)
          (trace m ++ evs ++ [LoggerErrorf (Failure e)])%list,
       inl (PipelineRun (incr retry)))
  end.
Proof.
  revert blk m; induction procs as [|proc rest IH]; intros blk m; simpl.
  - unfold ret. rewrite app_nil_r, machine_eta. reflexivity.
  - unfold bind, extern, emit; simpl.
    destruct (Process proc blk (world m)) as [w' [blk'|e]]; simpl.
    + rewrite IH; simpl.
      destruct (processAll rest blk' w') as [[w'' evs] [b|e]]; simpl;
        unfold mk; repeat rewrite <- app_assoc; reflexivity.
    + unfold setError, modify, leave; simpl. unfold mk.
      repeat rewrite <- app_assoc. reflexivity.
Qed.

Lemma runCallbacks_completeAll retry index cbs blk (m : machine W) :
  runCallbacks retry index cbs blk m =
  match completeAll index cbs blk (world m) with
  | (w, evs, None) => (mk (pipe m) w (disk m) (trace m ++ evs)%list, inr tt)
  | (w, evs, Some e) =>
      (mk (withErr (Some e) (pipe m)) w (disk m)
          (trace m ++ evs ++ [LoggerErrorf (Failure e)])%list,
       inl (PipelineRun (incr retry)))
  end.
Proof.
  revert index m; induction cbs as [|cb rest IH]; intros index m; simpl.
  - unfold ret. rewrite app_nil_r, machine_eta. reflexivity.
  - unfold bind, extern, emit; simpl.
    destruct (cb blk (world m)) as [w' [e|]]; simpl.
    + unfold setError, modify, leave; simpl. unfold mk.
      repeat rewrite <- app_assoc. reflexivity.
    + rewrite IH; simpl.
      destruct (completeAll (S index) rest blk w') as [[w'' evs] [e|]]; simpl;
        unfold mk; repeat rewrite <- app_assoc; reflexivity.
Qed.

Lemma encodeMetadataToFile_replaceMetadata (m : machine W) :
  encodeMetadataToFile rt m =
  match replaceMetadata rt (pipelineMetadata (pipe m)) (disk m) (world m) with
  | (w, d, evs, Some e) => (mk (pipe m) w d (trace m ++ evs)%list, inl e)
  | (w, d, evs, None) => (mk (pipe m) w d (trace m ++ evs)%list, inr tt)
  end.
Proof.
  unfold encodeMetadataToFile, replaceMetadata, bind, fails, extern, getDisk,
    putDisk, gets, emit, leave; simpl.
  destruct (ioFault rt OsCreateTemp (world m)) as [w1 [|]]; simpl.
  { rewrite app_nil_r. destruct m; reflexivity. }
  destruct (ioFault rt JsonEncode w1) as [w2 [|]]; simpl.
  { rewrite app_nil_r. reflexivity. }
  destruct (ioFault rt OsRename w2) as [w3 [|]]; simpl.
  { rewrite app_nil_r. reflexivity. }
  reflexivity.
Qed.

(** *** The paths through the loop body *)

Ltac pass_shape :=
  unfold leave, ret, setError, modify, withTrace, withPipe, withWorld, mk;
  simpl; do 3 eexists; split; [reflexivity|];
  repeat rewrite <- app_assoc; simpl.

Ltac pass_events Hnap :=
  unfold opening, nap, closing, flushLog; rewrite ?Hnap;
  simpl; repeat rewrite <- app_assoc; simpl; reflexivity.

Lemma pipelineRun_pass retry (m : machine W) :
  exists m' r evs, pipelineRun rt retry m = (m', r) /\ pass rt retry m m' r evs.
Proof.
  unfold pipelineRun, bind, emit, gets, when, extern, try; simpl.
  destruct (retry >? RetryCount (cfg (pipe m))) eqn:Hbudget; simpl.
  { pass_shape. eapply PassExhausted; [assumption|reflexivity]. }
  assert (Hrest : forall w, (if retry >? 0 then timeSleep rt (RetryDelay (cfg (pipe m))) w else w)
                       = rested rt retry (cfg (pipe m)) w) by reflexivity.
  destruct (retry >? 0) eqn:Hnap; unfold ret at 1; simpl;
    rewrite (Hrest (world m)); clear Hrest;
    unfold withTrace, withWorld, withPipe; simpl;
    (destruct (ctxDone rt (rested rt retry (cfg (pipe m)) (world m))) eqn:Hdone;
     [ pass_shape;
       eapply PassCancelled; [assumption|reflexivity|assumption|pass_events Hnap]
     | simpl ]);
    (destruct (GetBlock (importer (pipe m))
                 (NextRound (pipelineMetadata (pipe m)))
                 (rested rt retry (cfg (pipe m)) (world m)))
       as [w' [blk|e]] eqn:Hget; simpl;
     [ | pass_shape;
         eapply PassImporterFailed;
         [assumption|reflexivity|assumption|eassumption|pass_events Hnap] ]);
    rewrite runProcessors_processAll; simpl;
    (destruct (processAll (processors (pipe m)) blk w')
       as [[w'' pevs] [blk'|e]] eqn:Hproc; simpl;
     [ | pass_shape;
         eapply PassProcessorFailed;
         [assumption|reflexivity|assumption|eassumption|eassumption
         |pass_events Hnap] ]);
    (destruct (Receive (exporter (pipe m)) blk' w'') as [w3 [e|]] eqn:Hrecv; simpl;
     [ pass_shape;
       eapply PassExporterFailed;
       [assumption|reflexivity|assumption|eassumption|eassumption|eassumption
       |pass_events Hnap]
     | ]);
    rewrite encodeMetadataToFile_replaceMetadata; simpl;
    fold (advanced (pipelineMetadata (pipe m)));
    (destruct (replaceMetadata rt (advanced (pipelineMetadata (pipe m)))
                 (disk m) w3) as [[[w4 d] fevs] ferr] eqn:Hflush);
    (destruct ferr as [ferr|]; simpl);
    rewrite runCallbacks_completeAll; simpl;
    (destruct (completeAll 0 (completeCallback (pipe m)) blk' w4)
       as [[w5 cevs] [e|]] eqn:Hcb; simpl);
    try (pass_shape;
         eapply PassCallbackFailed;
         [assumption|reflexivity|assumption|eassumption|eassumption|eassumption
         |eassumption|eassumption|pass_events Hnap]).
  all: unfold addMetrics, bind, emit, emitAll;
    destruct (wrap64 (NextRound (pipelineMetadata (pipe m)) + 1) >? 1) eqn:Hbig;
    pass_shape;
    (eapply PassCompleted;
     [assumption|reflexivity|assumption|eassumption|eassumption|eassumption
     |eassumption|eassumption|]);
    unfold opening, nap, closing, flushLog, blockMetrics, advanced;
    rewrite ?Hnap; simpl; rewrite ?Hbig;
    simpl; repeat rewrite <- app_assoc; simpl; reflexivity.
Qed.

Lemma pipelineRun_inv retry (m m' : machine W) r :
  pipelineRun rt retry m = (m', r) -> exists evs, pass rt retry m m' r evs.
Proof.
  intros H. destruct (pipelineRun_pass retry m) as (m1 & r1 & evs & H1 & Hp).
  rewrite H in H1. inversion H1; subst. exists evs; exact Hp.
Qed.

(** *** Reading the events of a pass *)

Lemma since_app (m : machine W) p w d evs :
  since m (mk p w d (trace m ++ evs)%list) = evs.
Proof.
  unfold since; simpl.
  rewrite skipn_app, skipn_all, Nat.sub_diag. reflexivity.
Qed.

Lemma pass_since retry (m m' : machine W) r evs :
  pass rt retry m m' r evs -> since m m' = evs.
Proof. intros H; inversion H; subst; apply since_app. Qed.

Lemma pass_trace retry (m m' : machine W) r evs :
  pass rt retry m m' r evs -> trace m' = (trace m ++ evs)%list.
Proof. intros H; inversion H; subst; reflexivity. Qed.

Lemma flat_map_nil_Forall {A : Type} (f : event -> list A) (P : event -> Prop) l :
  Forall P l -> (forall e, P e -> f e = []) -> flat_map f l = [].
Proof.
  intros HF Hf; induction HF as [|e l He _ IH]; simpl; [reflexivity|].
  rewrite (Hf e He), IH. reflexivity.
Qed.

Lemma processAll_events procs blk (w w' : W) pevs r :
  processAll procs blk w = (w', pevs, r) -> Forall processorEvent pevs.
Proof.
  revert blk w w' pevs r; induction procs as [|proc rest IH];
    intros blk w w' pevs r; simpl.
  - intros H; inversion H; constructor.
  - destruct (Process proc blk w) as [w1 [blk1|e]].
    + destruct (processAll rest blk1 w1) as [[w2 evs] r2] eqn:Hrest.
      intros H; inversion H; subst.
      repeat constructor. eapply IH; eassumption.
    + intros H; inversion H; subst. repeat constructor.
Qed.

Lemma processAll_failures procs blk (w w' : W) pevs r :
  processAll procs blk w = (w', pevs, r) ->
  flat_map failures pevs = match r with Ok _ => [] | Err e => [e] end.
Proof.
  revert blk w w' pevs r; induction procs as [|proc rest IH];
    intros blk w w' pevs r; simpl.
  - intros H; inversion H; reflexivity.
  - destruct (Process proc blk w) as [w1 [blk1|e]].
    + destruct (processAll rest blk1 w1) as [[w2 evs] r2] eqn:Hrest.
      intros H; inversion H; subst; simpl. eapply IH; eassumption.
    + intros H; inversion H; subst. reflexivity.
Qed.

Lemma completeAll_events index cbs blk (w w' : W) cevs r :
  completeAll index cbs blk w = (w', cevs, r) -> Forall callbackEvent cevs.
Proof.
  revert index w w' cevs r; induction cbs as [|cb rest IH];
    intros index w w' cevs r; simpl.
  - intros H; inversion H; constructor.
  - destruct (cb blk w) as [w1 [e|]].
    + intros H; inversion H; subst. repeat constructor.
    + destruct (completeAll (S index) rest blk w1) as [[w2 evs] r2] eqn:Hrest.
      intros H; inversion H; subst.
      repeat constructor. eapply IH; eassumption.
Qed.

Lemma completeAll_failures index cbs blk (w w' : W) cevs r :
  completeAll index cbs blk w = (w', cevs, r) ->
  flat_map failures cevs = match r with None => [] | Some e => [e] end.
Proof.
  revert index w w' cevs r; induction cbs as [|cb rest IH];
    intros index w w' cevs r; simpl.
  - intros H; inversion H; reflexivity.
  - destruct (cb blk w) as [w1 [e|]].
    + intros H; inversion H; subst. reflexivity.
    + destruct (completeAll (S index) rest blk w1) as [[w2 evs] r2] eqn:Hrest.
      intros H; inversion H; subst; simpl. eapply IH; eassumption.
Qed.

Lemma blockMetrics_events blk : Forall blockMetricEvent (blockMetrics blk).
Proof.
  unfold blockMetrics. repeat constructor.
  apply Forall_forall; intros e He. apply in_map_iff in He.
  destruct He as (k & <- & _). exact I.
Qed.

(** The flush either replaces the file by the encoded record, or leaves
    the metadata file as it was and reports an error. *)
Lemma replaceMetadata_cases st d (w w' : W) d' fevs ferr :
  replaceMetadata rt st d w = (w', d', fevs, ferr) ->
  (ferr = None /\ fevs = [MetadataReplaced st]
   /\ d' = {| metadataFile := Some (Json (jsonEncode st)); tempFile := None |})
  \/ (exists e, ferr = Some e /\ fevs = [] /\ metadataFile d' = metadataFile d).
Proof.
  unfold replaceMetadata.
  destruct (ioFault rt OsCreateTemp w) as [w1 [|]].
  { intros H; inversion H; subst; right; eauto. }
  destruct (ioFault rt JsonEncode w1) as [w2 [|]].
  { intros H; inversion H; subst; right; eauto. }
  destruct (ioFault rt OsRename w2) as [w3 [|]].
  { intros H; inversion H; subst; right; eauto. }
  intros H; inversion H; subst; left; auto.
Qed.

Lemma opening_events retry (m : machine W) :
  Forall openingEvent (opening retry m).
Proof.
  unfold opening, nap. destruct (retry >? 0); repeat constructor.
Qed.

Lemma nap_events retry c : Forall openingEvent (nap retry c).
Proof.
  unfold nap. destruct (retry >? 0); repeat constructor.
Qed.

Lemma closing_events st blk : Forall closingEvent (closing st blk).
Proof.
  unfold closing. constructor; [exact I|].
  destruct (NextRound st >? 1); [|constructor].
  eapply Forall_impl; [|apply blockMetrics_events].
  intros [] H; try contradiction. destruct m; try contradiction; exact I.
Qed.

Lemma replaceMetadata_events st d (w w' : W) d' fevs ferr :
  replaceMetadata rt st d w = (w', d', fevs, ferr) ->
  Forall flushEvent (fevs ++ flushLog ferr).
Proof.
  intros H. destruct (replaceMetadata_cases _ _ _ H)
    as [(-> & -> & _)|(e & -> & -> & _)]; repeat constructor.
Qed.

Lemma opening_head retry (m : machine W) :
  exists tail, opening retry m = Observe (PipelineRetryCount retry) :: tail.
Proof. unfold opening. eexists; reflexivity. Qed.

Lemma closing_timings st blk :
  flat_map timings (closing st blk) = [ExporterTimeSeconds].
Proof.
  unfold closing. cbn [flat_map timings app]. f_equal.
  destruct (NextRound st >? 1); [|reflexivity].
  apply flat_map_nil_Forall with (P := blockMetricEvent);
    [apply blockMetrics_events|].
  intros [] H; try contradiction; try reflexivity.
  destruct m; try contradiction; reflexivity.
Qed.

Opaque opening closing blockMetrics nap.

Ltac solve_silent :=
  let e := fresh "e" in
  let He := fresh "He" in
  intros e He; destruct e; simpl in *; try contradiction; try reflexivity;
  match goal with
  | m : metric |- _ => destruct m; simpl in *; try contradiction; reflexivity
  | m : logMsg |- _ => destruct m; simpl in *; try contradiction; reflexivity
  end.

Ltac read :=
  cbn [flat_map app asked handed exported written failures timings
       fetched processed processorTimings completed].

Ltac hush :=
  repeat first
    [ rewrite flat_map_app
    | progress read
    | match goal with
      | |- context [flat_map ?f (opening ?retry ?m)] =>
          rewrite (flat_map_nil_Forall f (opening_events retry m)) by solve_silent
      | H : processAll _ _ _ = (_, ?l, _) |- context [flat_map ?f ?l] =>
          rewrite (flat_map_nil_Forall f (processAll_events _ _ _ H)) by solve_silent
      | H : completeAll _ _ _ _ = (_, ?l, _) |- context [flat_map ?f ?l] =>
          rewrite (flat_map_nil_Forall f (completeAll_events _ _ _ _ H)) by solve_silent
      | |- context [flat_map ?f (nap ?retry ?c)] =>
          rewrite (flat_map_nil_Forall f (nap_events retry c)) by solve_silent
      | |- context [flat_map ?f (closing ?st ?b)] =>
          rewrite (flat_map_nil_Forall f (closing_events st b)) by solve_silent
      | |- context [flat_map ?f (blockMetrics ?b)] =>
          rewrite (flat_map_nil_Forall f (blockMetrics_events b)) by solve_silent
      | H : replaceMetadata _ _ _ _ = (_, _, ?l, ?e)
        |- context [(flat_map ?f ?l ++ flat_map ?f (flushLog ?e) ++ ?rest)%list] =>
          rewrite (app_assoc (flat_map f l) (flat_map f (flushLog e)) rest);
          rewrite <- (flat_map_app f l (flushLog e));
          rewrite (flat_map_nil_Forall f (replaceMetadata_events _ _ _ H))
            by solve_silent
      end ].

(** A pass has at most one failed call: the one whose error it latches. *)
Lemma pass_failures retry (m m' : machine W) r evs :
  pass rt retry m m' r evs ->
  flat_map failures evs =
  match r with
  | inl (PipelineRun _) =>
      match Error m' with
      | Some e => [e]
      | None => []
      end
  | _ => []
  end.
Proof.
  intros H; inversion H; subst; clear H; unfold Error; simpl;
    hush;
    repeat match goal with
      | Hp : processAll _ _ _ = _ |- _ =>
          rewrite (processAll_failures _ _ _ Hp); clear Hp
      | Hc : completeAll _ _ _ _ = _ |- _ =>
          rewrite (completeAll_failures _ _ _ _ Hc); clear Hc
      end;
    reflexivity.
Qed.

(** A pass asks the importer once, for the cursor's round, unless it
    returns from the goroutine. *)
Lemma pass_asked retry (m m' : machine W) r evs :
  pass rt retry m m' r evs ->
  flat_map asked evs =
  match r with
  | inl Return => []
  | _ => [NextRound (pipelineMetadata (pipe m))]
  end.
Proof.
  intros H; inversion H; subst; clear H; hush; reflexivity.
Qed.

(** *** Retry reset *)

(** C6. After a pass in which a round was attempted and importer,
    processors, exporter and every completion callback returned without
    error, the latched error is nil and [retry] is 0, so that a failure
    in the next pass observes the retry metric at 0 and leaves [retry]
    at 1.  A pass that finds the retry budget exhausted returns without
    touching the latched error. *)
Theorem success_clears_error_and_resets_retry retry (m m' : machine W) r :
  pipelineRun rt retry m = (m', r) ->
  (flat_map asked (since m m') <> [] ->
   flat_map failures (since m m') = [] ->
   r = inr 0 /\ Error m' = None
   /\ turn rt (Running retry) m = (m', Running 0)
   /\ forall m'' r',
        pipelineRun rt 0 m' = (m'', r') ->
        (exists tail, since m' m'' = Observe (PipelineRetryCount 0) :: tail)
        /\ (flat_map failures (since m' m'') <> [] ->
            r' = inl (PipelineRun 1)))
  /\ ((retry >? RetryCount (cfg (pipe m))) = true ->
      r = inl Return /\ Error m' = Error m).
Proof.
  intros Hrun. destruct (pipelineRun_inv _ _ Hrun) as [evs Hpass].
  rewrite (pass_since Hpass). split.
  - intros Hasked Hquiet.
    rewrite (pass_asked Hpass) in Hasked.
    rewrite (pass_failures Hpass) in Hquiet.
    assert (Hr : r = inr 0 /\ Error m' = None).
    { inversion Hpass; subst; clear Hpass; unfold Error in *;
        cbn [pipe err mk withErr] in *;
        try discriminate Hquiet; try (exfalso; apply Hasked; reflexivity).
      split; reflexivity. }
    destruct Hr as [-> Herr]. repeat split; try assumption.
    + unfold turn. rewrite Hrun. reflexivity.
    + destruct (pipelineRun_inv _ _ H) as [evs' Hpass'].
      rewrite (pass_since Hpass').
      inversion Hpass'; subst; try (eexists; reflexivity);
        destruct (opening_head 0 m') as [tail ->]; eexists; reflexivity.
    + destruct (pipelineRun_inv _ _ H) as [evs' Hpass'].
      rewrite (pass_since Hpass'). intros Hfail.
      rewrite (pass_failures Hpass') in Hfail.
      inversion Hpass'; subst; try reflexivity;
        exfalso; apply Hfail; reflexivity.
  - intros Hbudget.
    inversion Hpass; subst; try congruence. split; reflexivity.
Qed.

(** *** The cursor in a pass *)

Ltac find_in :=
  cbn [flushLog];
  repeat first [rewrite in_app_iff | progress cbn [In]];
  auto 15.

Ltac refute_in Hin :=
  repeat first [rewrite in_app_iff in Hin | progress cbn [In] in Hin];
  repeat match type of Hin with
    | _ \/ _ => destruct Hin as [Hin|Hin]
    end;
  try discriminate Hin; try contradiction.

Lemma replaceMetadata_error st d (w w' : W) d' fevs ferr :
  replaceMetadata rt st d w = (w', d', fevs, ferr) ->
  forall e, ferr = Some e -> flushError e.
Proof.
  unfold replaceMetadata, flushError.
  destruct (ioFault rt OsCreateTemp w) as [w1 [|]].
  { intros H e ->; inversion H; subst; eauto. }
  destruct (ioFault rt JsonEncode w1) as [w2 [|]].
  { intros H e ->; inversion H; subst; eauto. }
  destruct (ioFault rt OsRename w2) as [w3 [|]].
  { intros H e ->; inversion H; subst; eauto. }
  intros H e ->; inversion H.
Qed.

(** A pass either exports nothing and leaves cursor and disk alone, or
    exports one block and advances the cursor; the advanced cursor then
    replaces the metadata file, or the flush fails, is logged, and the
    metadata file stays as it was. *)
Lemma pass_cursor retry (m m' : machine W) r evs :
  pass rt retry m m' r evs ->
  (flat_map exported evs = []
   /\ pipelineMetadata (pipe m') = pipelineMetadata (pipe m)
   /\ disk m' = disk m
   /\ flat_map written evs = [])
  \/ (exists blk,
        flat_map exported evs = [blk]
        /\ pipelineMetadata (pipe m') = advanced (pipelineMetadata (pipe m))
        /\ ((flat_map written evs = [NextRound (pipelineMetadata (pipe m'))]
             /\ metadataFile (disk m')
                = Some (Json (jsonEncode (pipelineMetadata (pipe m')))))
            \/ (flat_map written evs = []
                /\ metadataFile (disk m') = metadataFile (disk m)
                /\ exists e, flushError e
                             /\ In (LoggerErrorf (Failure e)) evs))).
Proof.
  intros H; inversion H; subst; clear H; cbn [pipe disk mk];
    try (left; repeat split; hush; reflexivity).
  - right. exists blk'. split; [hush; reflexivity|]. split; [reflexivity|].
    match goal with
    | Hf : replaceMetadata _ _ _ _ = _ |- _ =>
        pose proof (replaceMetadata_error _ _ _ Hf) as Hfe;
        destruct (replaceMetadata_cases _ _ _ Hf)
          as [(-> & -> & ->)|(e0 & -> & -> & Hd)]
    end.
    + left. split; [hush; reflexivity|reflexivity].
    + right. split; [hush; reflexivity|]. split; [exact Hd|].
      exists e0. split; [apply Hfe; reflexivity|].
      find_in.
  - right. exists blk'. split; [hush; reflexivity|]. split; [reflexivity|].
    match goal with
    | Hf : replaceMetadata _ _ _ _ = _ |- _ =>
        pose proof (replaceMetadata_error _ _ _ Hf) as Hfe;
        destruct (replaceMetadata_cases _ _ _ Hf)
          as [(-> & -> & ->)|(e0 & -> & -> & Hd)]
    end.
    + left. split; [hush; reflexivity|reflexivity].
    + right. split; [hush; reflexivity|]. split; [exact Hd|].
      exists e0. split; [apply Hfe; reflexivity|].
      find_in.
Qed.

(** *** Completion callbacks *)


Lemma completeAll_first index cbs blk (w w' : W) cevs r :
  cbs <> [] ->
  completeAll index cbs blk w = (w', cevs, r) ->
  exists res, In (CallOnComplete index blk res) cevs.
Proof.
  destruct cbs as [|cb cbs]; [congruence|intros _].
  simpl. destruct (cb blk w) as [w1 [e1|]].
  - intros H; inversion H; subst. eexists; left; reflexivity.
  - destruct (completeAll (S index) cbs blk w1) as [[w2 evs] r2].
    intros H; inversion H; subst. eexists; left; reflexivity.
Qed.




Lemma completeAll_failed index cbs blk (w w' : W) cevs e :
  completeAll index cbs blk w = (w', cevs, Some e) ->
  exists i, In (CallOnComplete i blk (Some e)) cevs.
Proof.
  revert index w w' cevs; induction cbs as [|cb rest IH];
    intros index w w' cevs; simpl.
  - intros H; inversion H.
  - destruct (cb blk w) as [w1 [e1|]].
    + intros H; inversion H; subst. eexists; left; reflexivity.
    + destruct (completeAll (S index) rest blk w1) as [[w2 evs] r2] eqn:Hrest.
      intros H; inversion H; subst.
      destruct (IH _ _ _ _ Hrest) as [i Hi]. exists i; right; exact Hi.
Qed.

(** *** Flush failure *)

(** C7. In a pass whose export succeeded and whose flush did not replace
    the metadata file, the flush error is logged and the metadata file
    stays as it was, but the round goes on: the cursor is advanced, the
    completion callbacks are called with the exported block, and the pass
    ends as any exported round does: completed, with [retry] 0 and the
    error cleared, unless a callback returns an error. *)
Theorem flush_failure_is_logged_and_round_goes_on retry (m m' : machine W) r blk :
  pipelineRun rt retry m = (m', r) ->
  flat_map exported (since m m') = [blk] ->
  flat_map written (since m m') = [] ->
  (exists e, flushError e /\ In (LoggerErrorf (Failure e)) (since m m'))
  /\ metadataFile (disk m') = metadataFile (disk m)
  /\ NextRound (pipelineMetadata (pipe m'))
     = wrap64 (NextRound (pipelineMetadata (pipe m)) + 1)
  /\ (completeCallback (pipe m) <> [] ->
      exists res, In (CallOnComplete 0 blk res) (since m m'))
  /\ (flat_map failures (since m m') = [] -> r = inr 0 /\ Error m' = None)
  /\ (r = inr 0
      \/ (r = inl (PipelineRun (incr retry))
          /\ exists i e, In (CallOnComplete i blk (Some e)) (since m m'))).
Proof.
  intros Hrun Hexp Hwr. destruct (pipelineRun_inv _ _ Hrun) as [evs Hpass].
  rewrite (pass_since Hpass) in *.
  destruct (pass_cursor Hpass) as [(Hnone & _)|(b & _ & Hmeta & Hflush)].
  { rewrite Hnone in Hexp; discriminate Hexp. }
  destruct Hflush as [(Hw & _)|(_ & Hdisk & Hlog)].
  { rewrite Hw in Hwr; discriminate Hwr. }
  split; [exact Hlog|]. split; [exact Hdisk|].
  split; [rewrite Hmeta; reflexivity|].
  pose proof (pass_failures Hpass) as Hfail.
  clear Hmeta Hdisk Hlog Hwr Hrun.
  inversion Hpass; subst; clear Hpass; revert Hexp Hfail; hush;
    try discriminate; intros Hexp Hfail; inversion Hexp; subst; clear Hexp.
  - split; [|split].
    + intros Hcbs.
      match goal with
      | Hcb : completeAll _ _ _ _ = _ |- _ =>
          destruct (completeAll_first _ _ _ Hcbs Hcb) as [res Hres]
      end.
      exists res. find_in.
    + intros Hquiet. rewrite Hquiet in Hfail. discriminate Hfail.
    + right. split; [reflexivity|].
      match goal with
      | Hcb : completeAll _ _ _ _ = _ |- _ =>
          destruct (completeAll_failed _ _ _ _ Hcb) as [i Hi]
      end.
      exists i, e. find_in.
  - split; [|split].
    + intros Hcbs.
      match goal with
      | Hcb : completeAll _ _ _ _ = _ |- _ =>
          destruct (completeAll_first _ _ _ Hcbs Hcb) as [res Hres]
      end.
      exists res. find_in.
    + intros _. split; reflexivity.
    + left; reflexivity.
Qed.

(** *** Timing metrics *)

Lemma processorEvents_timings l :
  Forall processorEvent l ->
  flat_map timings l = map ProcessorTimeSeconds (flat_map processorTimings l).
Proof.
  induction 1 as [|e l He _ IH]; [reflexivity|].
  cbn [flat_map]. rewrite map_app, IH. f_equal.
  destruct e; try contradiction; try reflexivity.
  destruct m; try contradiction; reflexivity.
Qed.

Lemma processAll_timed procs blk (w w' : W) pevs r :
  processAll procs blk w = (w', pevs, r) ->
  flat_map processorTimings pevs = flat_map processed pevs.
Proof.
  revert blk w w' pevs r; induction procs as [|proc rest IH];
    intros blk w w' pevs r; simpl.
  - intros H; inversion H; reflexivity.
  - destruct (Process proc blk w) as [w1 [blk1|e]].
    + destruct (processAll rest blk1 w1) as [[w2 evs] r2] eqn:Hrest.
      intros H; inversion H; subst; simpl. f_equal. eapply IH; eassumption.
    + intros H; inversion H; subst. reflexivity.
Qed.

Lemma not_in_processor_timings x l :
  (forall name, x <> ProcessorTimeSeconds name) ->
  ~ In x (map ProcessorTimeSeconds l).
Proof.
  intros Hx Hin. apply in_map_iff in Hin. destruct Hin as (n & Hn & _).
  eapply Hx; symmetry; exact Hn.
Qed.

(** C9 (as the code has it).  Every pass first observes the retry
    metric.  A pass in which the importer returned no block observes no
    per-stage timing; once it returned one, the importer's time is
    observed whatever happens next; the processors whose time is observed
    are those that returned a block; the exporter's time is observed
    exactly when the round completes. *)
Theorem timings_follow_each_stage retry (m m' : machine W) r :
  pipelineRun rt retry m = (m', r) ->
  (exists tail, since m m' = Observe (PipelineRetryCount retry) :: tail)
  /\ (flat_map fetched (since m m') = [] ->
      flat_map timings (since m m') = [])
  /\ (flat_map fetched (since m m') <> [] ->
      In ImporterTimeSeconds (flat_map timings (since m m')))
  /\ flat_map processorTimings (since m m') = flat_map processed (since m m')
  /\ (In ExporterTimeSeconds (flat_map timings (since m m')) <-> r = inr 0).
Proof.
  intros Hrun. destruct (pipelineRun_inv _ _ Hrun) as [evs Hpass].
  rewrite (pass_since Hpass). clear Hrun.
  split.
  { inversion Hpass; subst; try (eexists; reflexivity);
      destruct (opening_head retry m) as [tail ->]; eexists; reflexivity. }
  inversion Hpass; subst; clear Hpass; hush;
    repeat match goal with
      | Hp : processAll _ _ _ = _ |- _ =>
          rewrite (processorEvents_timings (processAll_events _ _ _ Hp));
          rewrite (processAll_timed _ _ _ Hp);
          generalize (processAll_events _ _ _ Hp); clear Hp; intros Hp
      end;
    rewrite ?closing_timings.
  all: (split; [|split; [|split; [|split]]]);
    try reflexivity; try (intros _; reflexivity); try discriminate;
    try congruence;
    try (intros Hne; exfalso; apply Hne; reflexivity);
    try (intros _; find_in; fail);
    try (intros Hin; exfalso; refute_in Hin;
         revert Hin; apply not_in_processor_timings; congruence).
Qed.

(** *** Runs of several turns *)

Lemma extends_refl (m : machine W) : extends m m.
Proof. exists []. rewrite app_nil_r. reflexivity. Qed.

Lemma extends_trans (m1 m2 m3 : machine W) :
  extends m1 m2 -> extends m2 m3 -> extends m1 m3.
Proof.
  intros [e1 H1] [e2 H2]. exists (e1 ++ e2)%list.
  rewrite H2, H1, app_assoc. reflexivity.
Qed.

Lemma since_refl (m : machine W) : since m m = [].
Proof. unfold since. apply skipn_all. Qed.

Lemma skipn_length_app {A : Type} (a b : list A) :
  skipn (List.length a) (a ++ b) = b.
Proof. induction a; simpl; auto. Qed.

Lemma since_trans (m1 m2 m3 : machine W) :
  extends m1 m2 -> extends m2 m3 ->
  since m1 m3 = (since m1 m2 ++ since m2 m3)%list.
Proof.
  intros [e1 H1] [e2 H2]. unfold since. rewrite H2, H1.
  rewrite (skipn_length_app (trace m1) e1).
  rewrite (skipn_length_app (trace m1 ++ e1) e2).
  rewrite <- app_assoc. apply skipn_length_app.
Qed.

Lemma pass_extends retry (m m' : machine W) r evs :
  pass rt retry m m' r evs -> extends m m'.
Proof. intros H. exists evs. eapply pass_trace; eassumption. Qed.

Lemma turn_extends g (m m' : machine W) g' :
  turn rt g m = (m', g') -> extends m m'.
Proof.
  destruct g as [retry|]; simpl.
  - destruct (pipelineRun rt retry m) as [m1 r] eqn:Hrun.
    destruct (pipelineRun_inv _ _ Hrun) as [evs Hpass].
    intros H. assert (m1 = m') as <-
      by (destruct r as [[|]|]; inversion H; reflexivity).
    eapply pass_extends; eassumption.
  - intros H; inversion H; subst. apply extends_refl.
Qed.

Lemma turns_extends n g (m m' : machine W) g' :
  turns rt n g m = (m', g') -> extends m m'.
Proof.
  revert g m; induction n as [|n IH]; intros g m; simpl.
  - intros H; inversion H; subst. apply extends_refl.
  - destruct (turn rt g m) as [m1 g1] eqn:Hturn. intros H.
    eapply extends_trans; [eapply turn_extends; eassumption|].
    eapply IH; eassumption.
Qed.

Lemma turns_Returned n (m : machine W) : turns rt n Returned m = (m, Returned).
Proof. induction n; simpl; auto. Qed.

Lemma turns_add n k g (m : machine W) :
  turns rt (n + k) g m =
  let (m', g') := turns rt n g m in turns rt k g' m'.
Proof.
  revert g m; induction n as [|n IH]; intros g m; simpl.
  - reflexivity.
  - destruct (turn rt g m) as [m1 g1]. apply IH.
Qed.

(** What a turn does to the cursor: [pass_cursor], for a goroutine that
    may have returned. *)
Lemma turn_cursor g (m m' : machine W) g' :
  turn rt g m = (m', g') ->
  (flat_map exported (since m m') = []
   /\ pipelineMetadata (pipe m') = pipelineMetadata (pipe m)
   /\ disk m' = disk m
   /\ flat_map written (since m m') = [])
  \/ (exists blk,
        flat_map exported (since m m') = [blk]
        /\ pipelineMetadata (pipe m') = advanced (pipelineMetadata (pipe m))
        /\ (flat_map written (since m m')
            = [NextRound (pipelineMetadata (pipe m'))]
            \/ flat_map written (since m m') = [])).
Proof.
  destruct g as [retry|]; simpl.
  - destruct (pipelineRun rt retry m) as [m1 r] eqn:Hrun.
    destruct (pipelineRun_inv _ _ Hrun) as [evs Hpass].
    intros H. assert (m1 = m') as <-
      by (destruct r as [[|]|]; inversion H; reflexivity).
    rewrite (pass_since Hpass).
    destruct (pass_cursor Hpass) as [Hno|(blk & Hexp & Hmeta & Hw)].
    + left; exact Hno.
    + right. exists blk. split; [exact Hexp|]. split; [exact Hmeta|].
      destruct Hw as [[Hw _]|[Hw _]]; [left|right]; exact Hw.
  - intros H; inversion H; subst. left. rewrite since_refl. auto.
Qed.

(** *** Cursor monotonicity *)

Lemma wrap64_small z : 0 <= z < uint64_modulus -> wrap64 z = z.
Proof. intros H. unfold wrap64. apply Z.mod_small; exact H. Qed.

Lemma NextRound_advanced st :
  0 <= NextRound st -> NextRound st + 1 <= MaxUint64 ->
  NextRound (advanced st) = NextRound st + 1.
Proof.
  intros H0 H1. unfold advanced; cbn [NextRound withNextRound].
  apply wrap64_small. unfold MaxUint64 in H1. lia.
Qed.

Lemma StronglySorted_lt_app l1 l2 bound :
  StronglySorted Z.lt l1 -> StronglySorted Z.lt l2 ->
  Forall (fun v => v <= bound) l1 -> Forall (fun v => bound < v) l2 ->
  StronglySorted Z.lt (l1 ++ l2).
Proof.
  intros H1 H2 Hle Hgt. induction H1 as [|a l Hl IH Ha]; simpl; [exact H2|].
  inversion Hle; subst. constructor; [apply IH; assumption|].
  apply Forall_app; split; [exact Ha|].
  eapply Forall_impl; [|exact Hgt]. simpl; intros; lia.
Qed.

(** C4 (as the code has it).  As long as the cursor does not wrap around
    2^64, in any run of the worker the in-memory next-round grows by
    exactly one per block the exporter accepted, and the next-round
    values put in the metadata file are strictly increasing (so monotone
    non-decreasing) and lie between the two. *)
Theorem cursor_grows_by_one_per_export n g (m m' : machine W) g' :
  turns rt n g m = (m', g') ->
  0 <= NextRound (pipelineMetadata (pipe m)) ->
  NextRound (pipelineMetadata (pipe m)) + Z.of_nat n <= MaxUint64 ->
  NextRound (pipelineMetadata (pipe m'))
  = NextRound (pipelineMetadata (pipe m))
    + Z.of_nat (List.length (flat_map exported (since m m')))
  /\ StronglySorted Z.lt (flat_map written (since m m'))
  /\ Forall (fun v => NextRound (pipelineMetadata (pipe m)) < v
                      <= NextRound (pipelineMetadata (pipe m')))
            (flat_map written (since m m')).
Proof.
  revert g m; induction n as [|n IH]; intros g m; simpl.
  - intros H; inversion H; subst. intros _ _. rewrite since_refl. simpl.
    split; [lia|]. split; constructor.
  - destruct (turn rt g m) as [m1 g1] eqn:Hturn. intros Hrun H0 Hmax.
    pose proof (turn_extends _ _ Hturn) as He1.
    pose proof (turns_extends _ _ _ Hrun) as He2.
    rewrite (since_trans He1 He2), !flat_map_app, length_app.
    destruct (turn_cursor _ _ Hturn)
      as [(Hexp & Hmeta & _ & Hw)|(blk & Hexp & Hmeta & Hw)].
    + rewrite Hexp, Hw. simpl.
      destruct (IH _ _ Hrun) as (Hn & Hs & Hf);
        rewrite ?Hmeta; try assumption; try lia.
      rewrite Hmeta in Hn, Hf. auto.
    + assert (Hn1 : NextRound (pipelineMetadata (pipe m1))
                    = NextRound (pipelineMetadata (pipe m)) + 1).
      { rewrite Hmeta. apply NextRound_advanced; lia. }
      destruct (IH _ _ Hrun) as (Hn & Hs & Hf); try lia.
      rewrite Hexp. split; [simpl List.length; lia|].
      assert (Hw1 : Forall (fun v => NextRound (pipelineMetadata (pipe m)) < v
                                <= NextRound (pipelineMetadata (pipe m1)))
                           (flat_map written (since m m1))).
      { destruct Hw as [-> | ->]; repeat constructor; lia. }
      split.
      * apply StronglySorted_lt_app
          with (bound := NextRound (pipelineMetadata (pipe m1))).
        -- destruct Hw as [-> | ->]; repeat constructor.
        -- exact Hs.
        -- eapply Forall_impl; [|exact Hw1]. simpl; intros; lia.
        -- eapply Forall_impl; [|exact Hf]. simpl; intros; lia.
      * apply Forall_app; split.
        -- eapply Forall_impl; [|exact Hw1]. simpl; intros; lia.
        -- eapply Forall_impl; [|exact Hf]. simpl; intros; lia.
Qed.

(** *** Retry boundedness *)

Lemma processAll_serves procs blk (w : W) :
  Forall (@processorServes W) procs ->
  exists w' pevs blk', processAll procs blk w = (w', pevs, Ok blk').
Proof.
  intros H; revert blk w; induction H as [|proc rest Hp _ IH]; intros blk w.
  - simpl. eauto.
  - simpl. destruct (Hp blk w) as (w1 & blk1 & ->).
    destruct (IH blk1 w1) as (w2 & pevs & blk2 & ->). eauto.
Qed.

Lemma processAll_fails_at before proc after blk (w : W) e :
  Forall (@processorServes W) before ->
  (forall blk w, exists w', Process proc blk w = (w', Err e)) ->
  exists w' pevs,
    processAll (before ++ proc :: after) blk w = (w', pevs, Err e).
Proof.
  intros H Hproc; revert blk w; induction H as [|p rest Hp _ IH]; intros blk w.
  - simpl. destruct (Hproc blk w) as (w1 & ->). eauto.
  - simpl. destruct (Hp blk w) as (w1 & blk1 & ->).
    destruct (IH blk1 w1) as (w2 & pevs & ->). eauto.
Qed.

(** With a stage that always fails, a pass within the retry budget and
    not cancelled asks the importer once, latches the stage's error,
    increments [retry], and leaves cursor and disk alone. *)
Lemma failing_pass retry (m : machine W) s e :
  failsAlways (pipe m) s e ->
  (retry >? RetryCount (cfg (pipe m))) = false ->
  (forall w, ctxDone rt w = false) ->
  exists m',
    pipelineRun rt retry m = (m', inl (PipelineRun (incr retry)))
    /\ pipe m' = withErr (Some e) (pipe m)
    /\ disk m' = disk m
    /\ flat_map asked (since m m') = [NextRound (pipelineMetadata (pipe m))].
Proof.
  intros Hfail Hbudget Hctx.
  destruct (pipelineRun_pass retry m) as (m' & r & evs & Hrun & Hpass).
  exists m'. rewrite Hrun, (pass_since Hpass), (pass_asked Hpass).
  inversion Hpass; subst; clear Hpass; cbn [pipe disk mk];
    try congruence;
    try (match goal with
         | H : ctxDone rt _ = true |- _ => rewrite Hctx in H; discriminate H
         end);
    destruct s as [|n|]; cbn [failsAlways] in Hfail.
  all: try (match goal with
            | Hg : GetBlock _ _ ?w = _ |- _ =>
                let Hg0 := fresh in
                destruct (Hfail (NextRound (pipelineMetadata (pipe m))) w)
                  as (? & Hg0); rewrite Hg0 in Hg; inversion Hg; subst
            end; auto; fail).
  all: destruct Hfail as (Himp & Hrest);
    match goal with
    | Hg : GetBlock _ _ ?w = _ |- _ =>
        let Hg0 := fresh in
        destruct (Himp (NextRound (pipelineMetadata (pipe m))) w)
          as (? & ? & Hg0); rewrite Hg0 in Hg; inversion Hg; subst
    end.
  all: try (destruct Hrest as (before & proc & after & Hprocs & _ & Hserve & Hproc);
            match goal with
            | Hp : processAll _ ?b ?w = _ |- _ =>
                let Hp1 := fresh in
                rewrite Hprocs in Hp;
                destruct (@processAll_fails_at before proc after b w e
                            Hserve Hproc)
                  as (? & ? & Hp1);
                rewrite Hp1 in Hp; inversion Hp; subst
            end; auto; fail).
  all: destruct Hrest as (Hserve & Hrecv);
    match goal with
    | Hp : processAll _ ?b ?w = _ |- _ =>
        let Hp1 := fresh in
        destruct (@processAll_serves _ b w Hserve)
          as (? & ? & ? & Hp1);
        rewrite Hp1 in Hp; inversion Hp; subst
    end;
    match goal with
    | Hr : Receive _ ?b ?w = _ |- _ =>
        let Hr2 := fresh in
        destruct (Hrecv b w) as (? & Hr2);
        rewrite Hr2 in Hr; inversion Hr; subst
    end; auto.
Qed.

Lemma exhausted_pass retry (m : machine W) :
  (retry >? RetryCount (cfg (pipe m))) = true ->
  exists m',
    pipelineRun rt retry m = (m', inl Return)
    /\ pipe m' = pipe m /\ disk m' = disk m
    /\ flat_map asked (since m m') = [].
Proof.
  intros Hbudget.
  destruct (pipelineRun_pass retry m) as (m' & r & evs & Hrun & Hpass).
  exists m'. rewrite Hrun, (pass_since Hpass), (pass_asked Hpass).
  inversion Hpass; subst; try congruence. auto.
Qed.

Lemma incr_small retry : 0 <= retry < MaxUint64 -> incr retry = retry + 1.
Proof.
  intros H. unfold incr. apply wrap64_small. unfold MaxUint64 in H. lia.
Qed.

Lemma failing_turns s e k :
  forall retry (m : machine W),
    failsAlways (pipe m) s e ->
    (forall w, ctxDone rt w = false) ->
    RetryCount (cfg (pipe m)) < MaxUint64 ->
    0 <= retry ->
    retry + Z.of_nat (S k) <= RetryCount (cfg (pipe m)) + 1 ->
    exists m',
      turns rt (S k) (Running retry) m = (m', Running (retry + Z.of_nat (S k)))
      /\ pipe m' = withErr (Some e) (pipe m)
      /\ disk m' = disk m
      /\ flat_map asked (since m m')
         = repeat (NextRound (pipelineMetadata (pipe m))) (S k).
Proof.
  induction k as [|k IH]; intros retry m Hfail Hctx Hmax H0 Hk.
  - destruct (@failing_pass retry m s e Hfail) as (m' & Hrun & Hp & Hd & Ha);
      [rewrite Z.gtb_ltb; apply Z.ltb_ge; lia|exact Hctx|].
    exists m'. cbn [turns turn]. rewrite Hrun.
    rewrite incr_small by lia. auto.
  - destruct (@failing_pass retry m s e Hfail) as (m1 & Hrun & Hp & Hd & Ha);
      [rewrite Z.gtb_ltb; apply Z.ltb_ge; lia|exact Hctx|].
    assert (Hfail1 : failsAlways (pipe m1) s e) by (rewrite Hp; exact Hfail).
    destruct (IH (retry + 1) m1 Hfail1 Hctx) as (m' & Hturns & Hp' & Hd' & Ha');
      try (rewrite Hp; cbn [cfg withErr]; lia); try lia.
    exists m'. change (turns rt (S (S k)) (Running retry) m)
      with (let (m0, g0) := turn rt (Running retry) m in turns rt (S k) g0 m0).
    cbn [turn]. rewrite Hrun, incr_small by lia. rewrite Hturns.
    split; [f_equal; f_equal; lia|].
    split; [rewrite Hp', Hp; reflexivity|].
    split; [congruence|].
    assert (He1 : extends m m1).
    { destruct (pipelineRun_inv _ _ Hrun) as [evs Hpass].
      eapply pass_extends; eassumption. }
    rewrite (since_trans He1 (turns_extends _ _ _ Hturns)), flat_map_app.
    rewrite Ha, Ha', Hp. reflexivity.
Qed.

(** C3 (as the code has it).  With a retry budget below the largest
    uint64, a context that is not cancelled, and a stage (importer, a
    processor, or the exporter) that returns the error [e] on every
    invocation, the worker asks the importer for the same round exactly
    RetryCount + 1 times and returns; the latched error is [e], and the
    cursor and the disk are as they were. *)
Theorem always_failing_stage_exhausts_retries (m : machine W) s e n :
  0 <= RetryCount (cfg (pipe m)) < MaxUint64 ->
  (forall w, ctxDone rt w = false) ->
  failsAlways (pipe m) s e ->
  (Z.to_nat (RetryCount (cfg (pipe m))) + 2 <= n)%nat ->
  exists m',
    Start rt n m = (m', Returned)
    /\ flat_map asked (since m m')
       = repeat (NextRound (pipelineMetadata (pipe m)))
                (Z.to_nat (RetryCount (cfg (pipe m))) + 1)
    /\ Error m' = Some e
    /\ disk m' = disk m
    /\ pipelineMetadata (pipe m') = pipelineMetadata (pipe m).
Proof.
  intros Hrc Hctx Hfail Hn.
  set (k := Z.to_nat (RetryCount (cfg (pipe m)))) in *.
  destruct (@failing_turns s e k 0 m Hfail Hctx) as (m1 & Hturns & Hp & Hd & Ha);
    try lia.
  destruct (@exhausted_pass (0 + Z.of_nat (S k)) m1) as (m2 & Hrun & Hp2 & Hd2 & Ha2).
  { rewrite Hp; cbn [cfg withErr]. rewrite Z.gtb_ltb; apply Z.ltb_lt. lia. }
  exists m2. unfold Start.
  replace n with (S k + (1 + (n - S k - 1)))%nat by lia.
  rewrite turns_add, Hturns, turns_add. cbn [turns turn]. rewrite Hrun.
  rewrite turns_Returned.
  assert (He2 : extends m1 m2).
  { destruct (pipelineRun_inv _ _ Hrun) as [evs Hpass].
    eapply pass_extends; eassumption. }
  split; [reflexivity|].
  rewrite (since_trans (turns_extends _ _ _ Hturns) He2), flat_map_app.
  rewrite Ha, Ha2, app_nil_r.
  replace (k + 1)%nat with (S k) by lia.
  split; [reflexivity|].
  unfold Error. rewrite Hp2, Hp, Hd2, Hd. auto.
Qed.

(** With the largest retry budget a uint64 can hold, [retry] never
    exceeds it: the worker keeps running. *)
Lemma budget_never_exhausted s e n :
  forall retry (m : machine W),
    RetryCount (cfg (pipe m)) = MaxUint64 ->
    failsAlways (pipe m) s e ->
    (forall w, ctxDone rt w = false) ->
    0 <= retry < uint64_modulus ->
    exists m' retry', turns rt n (Running retry) m = (m', Running retry').
Proof.
  induction n as [|n IH]; intros retry m Hrc Hfail Hctx Hretry.
  - simpl; eauto.
  - destruct (@failing_pass retry m s e Hfail) as (m1 & Hrun & Hp & _);
      [rewrite Hrc, Z.gtb_ltb; apply Z.ltb_ge; unfold MaxUint64; lia
      |exact Hctx|].
    cbn [turns turn]. rewrite Hrun.
    apply IH.
    + rewrite Hp; exact Hrc.
    + rewrite Hp; exact Hfail.
    + exact Hctx.
    + unfold incr, wrap64. apply Z.mod_pos_bound. reflexivity.
Qed.

(** *** Loading the metadata *)

Ltac since_norm :=
  unfold since, withTrace, withPipe, withWorld, withDisk, mk;
  cbn [trace pipe world disk];
  repeat rewrite <- app_assoc;
  rewrite ?skipn_length_app, ?skipn_all.

Ltac unfold_methods :=
  cbv beta iota zeta delta
    [initializeOrLoadBlockMetadata initProfiling initImporter initMetadata
     initStages yamlMarshal makeConfig registerLifecycleCallbacks
     bind osStat osReadFile fails extern
     getDisk putDisk gets modify emit ret leave try when
     withWorld withDisk withTrace withPipe].

Lemma replaceMetadata_faultFree st d (w w' : W) d' fevs ferr :
  faultFree rt -> replaceMetadata rt st d w = (w', d', fevs, ferr) -> ferr = None.
Proof.
  intros Hff. unfold replaceMetadata.
  pose proof (Hff OsCreateTemp w) as H1.
  destruct (ioFault rt OsCreateTemp w) as [w1 b1]; simpl in H1; subst b1.
  pose proof (Hff JsonEncode w1) as H2.
  destruct (ioFault rt JsonEncode w1) as [w2 b2]; simpl in H2; subst b2.
  pose proof (Hff OsRename w2) as H3.
  destruct (ioFault rt OsRename w2) as [w3 b3]; simpl in H3; subst b3.
  intros H; inversion H; reflexivity.
Qed.

Ltac no_fault Hff :=
  match goal with
  | H : ioFault rt ?op ?w = (_, true) |- _ =>
      let H' := fresh in
      pose proof (Hff op w) as H'; rewrite H in H'; discriminate H'
  end.

Ltac ext_nil := exists []; simpl; rewrite app_nil_r; reflexivity.

(** What [initializeOrLoadBlockMetadata] does, by what it returns. *)
Lemma load_cases (m m' : machine W) r :
  initializeOrLoadBlockMetadata rt m = (m', r) ->
  extends m m'
  /\ Forall loadEvent (since m m')
  /\ pipe m' = withPipelineMetadata (pipelineMetadata (pipe m')) (pipe m)
  /\ match r with
     | inr st' =>
         st' = pipelineMetadata (pipe m')
         /\ match metadataFile (disk m) with
            | None =>
                st' = pipelineMetadata (pipe m)
                /\ disk m' = {| metadataFile := Some (Json (jsonEncode st'));
                                tempFile := None |}
                /\ since m m' = [MetadataReplaced st']
            | Some ZeroLength =>
                st' = pipelineMetadata (pipe m)
                /\ disk m' = {| metadataFile := Some (Json (jsonEncode st'));
                                tempFile := None |}
                /\ since m m' = [MetadataRemoved; MetadataReplaced st']
            | Some data =>
                disk m' = disk m /\ since m m' = []
                /\ jsonUnmarshal data (pipelineMetadata (pipe m)) = (st', None)
            end
     | inl e =>
         flat_map written (since m m') = []
         /\ (metadataFile (disk m') = metadataFile (disk m)
             \/ (metadataFile (disk m) = Some ZeroLength
                 /\ metadataFile (disk m') = None))
         /\ (faultFree rt ->
             exists data e',
               metadataFile (disk m) = Some data
               /\ data <> ZeroLength
               /\ jsonUnmarshal data (pipelineMetadata (pipe m))
                  = (pipelineMetadata (pipe m'), Some e')
               /\ e = FmtErrorf "error reading metadata" e'
               /\ disk m' = disk m)
     end.
Proof.
  unfold_methods; simpl.
  destruct (ioFault rt OsStat (world m)) as [w1 [|]] eqn:Hstat; simpl.
  { intros H; inversion H; subst; clear H. since_norm.
    split; [ext_nil|]. split; [constructor|].
    split; [destruct m as [[] ? ? ?]; reflexivity|].
    split; [reflexivity|]. split; [left; reflexivity|].
    intros Hff; no_fault Hff. }
  destruct (metadataFile (disk m)) as [[|d|d]|] eqn:Hfile; simpl.
  - (* zero-length *)
    destruct (ioFault rt OsRemove w1) as [w2 [|]] eqn:Hrm; simpl.
    { intros H; inversion H; subst; clear H. since_norm.
      split; [ext_nil|]. split; [constructor|].
      split; [destruct m as [[] ? ? ?]; reflexivity|].
      split; [reflexivity|]. split; [left; exact Hfile|].
      intros Hff; no_fault Hff. }
    rewrite encodeMetadataToFile_replaceMetadata; simpl.
    destruct (replaceMetadata rt (pipelineMetadata (pipe m))
                {| metadataFile := None; tempFile := tempFile (disk m) |} w2)
      as [[[w3 d3] fevs] ferr] eqn:Hflush.
    pose proof (fun Hff : faultFree rt =>
                  @replaceMetadata_faultFree _ _ _ _ _ _ _ Hff Hflush) as Hff'.
    destruct (replaceMetadata_cases _ _ _ Hflush)
      as [(-> & -> & ->)|(e0 & -> & -> & Hd)]; simpl;
      intros H; inversion H; subst; clear H; since_norm;
      (split; [eexists; simpl; rewrite <- ?app_assoc; reflexivity|]);
      (split; [repeat constructor|]);
      (split; [destruct m as [[] ? ? ?]; reflexivity|]).
    + repeat split.
    + split; [reflexivity|]. split; [right; split; [reflexivity|exact Hd]|].
      intros Hff. specialize (Hff' Hff). discriminate Hff'.
  - (* a JSON document *)
    destruct (ioFault rt OsReadFile w1) as [w2 [|]] eqn:Hread; simpl.
    { intros H; inversion H; subst; clear H. since_norm.
      split; [ext_nil|]. split; [constructor|].
      split; [destruct m as [[] ? ? ?]; reflexivity|].
      split; [reflexivity|]. split; [left; exact Hfile|].
      intros Hff; no_fault Hff. }
    rewrite Hfile; simpl.
    destruct (next_round_fits d) eqn:Hfits; simpl;
      intros H; inversion H; subst; clear H; since_norm;
      (split; [ext_nil|]); (split; [constructor|]);
      (split; [reflexivity|]).
    + destruct m as [? ? [] ?]; simpl in *; subst. repeat split.
    + split; [reflexivity|]. split; [left; exact Hfile|].
      intros _. exists (Json d), JsonError. simpl. rewrite Hfits.
      destruct m as [? ? [] ?]; simpl in *; subst.
      repeat split; discriminate.
  - (* bytes the decoder rejects *)
    destruct (ioFault rt OsReadFile w1) as [w2 [|]] eqn:Hread; simpl.
    { intros H; inversion H; subst; clear H. since_norm.
      split; [ext_nil|]. split; [constructor|].
      split; [destruct m as [[] ? ? ?]; reflexivity|].
      split; [reflexivity|]. split; [left; exact Hfile|].
      intros Hff; no_fault Hff. }
    rewrite Hfile; simpl.
    intros H; inversion H; subst; clear H; since_norm.
    split; [ext_nil|]. split; [constructor|].
    split; [reflexivity|].
    split; [reflexivity|]. split; [left; exact Hfile|].
    intros _. exists (Invalid d), JsonError. simpl.
    destruct m as [? ? [] ?]; simpl in *; subst.
    repeat split; discriminate.
  - (* no file *)
    rewrite encodeMetadataToFile_replaceMetadata; simpl.
    destruct (replaceMetadata rt (pipelineMetadata (pipe m)) (disk m) w1)
      as [[[w3 d3] fevs] ferr] eqn:Hflush.
    pose proof (fun Hff : faultFree rt =>
                  @replaceMetadata_faultFree _ _ _ _ _ _ _ Hff Hflush) as Hff'.
    destruct (replaceMetadata_cases _ _ _ Hflush)
      as [(-> & -> & ->)|(e0 & -> & -> & Hd)]; simpl;
      intros H; inversion H; subst; clear H; since_norm;
      (split; [eexists; simpl; reflexivity|]);
      (split; [repeat constructor|]);
      (split; [destruct m as [[] ? ? ?]; reflexivity|]).
    + repeat split.
    + split; [reflexivity|]. split; [left; rewrite Hd; exact Hfile|].
      intros Hff. specialize (Hff' Hff). discriminate Hff'.
Qed.

Lemma jsonUnmarshal_jsonEncode rec st :
  in_uint64 (NextRound rec) ->
  jsonUnmarshal (Json (jsonEncode rec)) st = (rec, None).
Proof.
  intros [H0 H1]. unfold jsonUnmarshal, next_round_fits; simpl.
  replace (0 <=? NextRound rec) with true by (symmetry; apply Z.leb_le; lia).
  replace (NextRound rec <? uint64_modulus) with true
    by (symmetry; apply Z.ltb_lt; lia).
  destruct rec; reflexivity.
Qed.

(** C8.  [initializeOrLoadBlockMetadata]: when the file is missing, the
    in-memory record (with the importer's genesis hash and network) is
    written to disk and returned; when it is zero-length the file is
    removed first, then the same; otherwise the file is read and decoded
    into the record and the decoded record is returned, for a file that
    holds a whole record that record itself.  When no operating system
    call fails these are the only outcomes, the third one being an error
    when the decoder rejects the file. *)
Theorem metadata_load_policy (m m' : machine W) r :
  initializeOrLoadBlockMetadata rt m = (m', r) ->
  (forall st', r = inr st' ->
     pipelineMetadata (pipe m') = st'
     /\ match metadataFile (disk m) with
        | None =>
            st' = pipelineMetadata (pipe m)
            /\ metadataFile (disk m') = Some (Json (jsonEncode st'))
            /\ since m m' = [MetadataReplaced st']
        | Some ZeroLength =>
            st' = pipelineMetadata (pipe m)
            /\ metadataFile (disk m') = Some (Json (jsonEncode st'))
            /\ since m m' = [MetadataRemoved; MetadataReplaced st']
        | Some data =>
            disk m' = disk m /\ since m m' = []
            /\ jsonUnmarshal data (pipelineMetadata (pipe m)) = (st', None)
        end)
  /\ (faultFree rt ->
      match metadataFile (disk m) with
      | None | Some ZeroLength => r = inr (pipelineMetadata (pipe m))
      | Some data =>
          r = match jsonUnmarshal data (pipelineMetadata (pipe m)) with
              | (st', None) => inr st'
              | (_, Some e) => inl (FmtErrorf "error reading metadata" e)
              end
      end)
  /\ (forall rec,
        metadataFile (disk m) = Some (Json (jsonEncode rec)) ->
        in_uint64 (NextRound rec) -> faultFree rt ->
        r = inr rec).
Proof.
  intros Hload. destruct (load_cases _ Hload) as (_ & _ & _ & Hr).
  assert (Hff : faultFree rt ->
      match metadataFile (disk m) with
      | None | Some ZeroLength => r = inr (pipelineMetadata (pipe m))
      | Some data =>
          r = match jsonUnmarshal data (pipelineMetadata (pipe m)) with
              | (st', None) => inr st'
              | (_, Some e) => inl (FmtErrorf "error reading metadata" e)
              end
      end).
  { intros Hff. destruct r as [e|st'].
    - destruct Hr as (_ & _ & Hr).
      destruct (Hr Hff) as (data & e' & Hfile & Hnz & Hun & -> & _).
      rewrite Hfile. destruct data; [congruence| |]; rewrite Hun; reflexivity.
    - destruct Hr as (_ & Hr).
      destruct (metadataFile (disk m)) as [[|d|d]|].
      + destruct Hr as (-> & _); reflexivity.
      + destruct Hr as (_ & _ & ->); reflexivity.
      + destruct Hr as (_ & _ & ->); reflexivity.
      + destruct Hr as (-> & _); reflexivity. }
  split; [|split; [exact Hff|]].
  - intros st' ->. destruct Hr as (Hst & Hr). split; [auto|].
    destruct (metadataFile (disk m)) as [[|d|d]|]; try exact Hr.
    + destruct Hr as (H1 & -> & H3). auto.
    + destruct Hr as (H1 & -> & H3). auto.
  - intros rec Hfile Hrange Hfree. specialize (Hff Hfree).
    rewrite Hfile, (@jsonUnmarshal_jsonEncode rec _ Hrange) in Hff. exact Hff.
Qed.

(** *** Init *)

Lemma quiet_refl (m : machine W) : quiet m m.
Proof.
  unfold quiet. rewrite since_refl.
  repeat split; auto using extends_refl.
Qed.

Lemma quiet_trans (m1 m2 m3 : machine W) :
  quiet m1 m2 -> quiet m2 m3 -> quiet m1 m3.
Proof.
  intros (He1 & Hd1 & Hm1 & Hi1 & Hc1 & Hq1) (He2 & Hd2 & Hm2 & Hi2 & Hc2 & Hq2).
  unfold quiet. rewrite (since_trans He1 He2).
  repeat split; try congruence.
  - eapply extends_trans; eassumption.
  - apply Forall_app; split; assumption.
Qed.

Ltac exec :=
  repeat (simpl;
          match goal with
          | |- context [ioFault rt ?op ?w] =>
              destruct (ioFault rt op w) as [? [|]] eqn:?
          | |- context [(?a =? ?b)%string] =>
              destruct (a =? b)%string eqn:?
          end);
  simpl.

Ltac quiet_now :=
  unfold quiet; since_norm;
  repeat split; try reflexivity;
  try (eexists; simpl; rewrite <- ?app_assoc; reflexivity);
  try ext_nil;
  repeat constructor.

Ltac quiet_leaf :=
  let H := fresh in
  intros H; inversion H; subst; clear H; quiet_now.

Lemma initProfiling_quiet (m m' : machine W) r :
  initProfiling rt m = (m', r) -> quiet m m'.
Proof.
  unfold_methods. exec; quiet_leaf.
Qed.

Lemma initImporter_quiet (m m' : machine W) r :
  initImporter rt m = (m', r) ->
  quiet m m'
  /\ forall g, r = inr g ->
       exists pc w w', ImporterInit (importer (pipe m)) pc w = (w', Ok g).
Proof.
  unfold_methods. exec;
    match goal with
    | |- context [ImporterInit ?i ?pc ?w] =>
        destruct (ImporterInit i pc w) as [? [g0|e0]] eqn:?
    | _ => idtac
    end; simpl;
    intros H; inversion H; subst; clear H;
    (split; [quiet_now|]);
    intros g Hg; inversion Hg; subst; eauto.
Qed.

Lemma initProcessors_quiet procs :
  forall idx (m m' : machine W) r,
    initProcessors rt idx procs m = (m', r) -> quiet m m'.
Proof.
  induction procs as [|proc rest IH]; intros idx m m' r.
  - simpl. intros H; inversion H; subst. apply quiet_refl.
  - cbn [initProcessors]. unfold_methods. exec.
    all: try (quiet_leaf; fail).
    all: destruct (initProvider (pipe m)) as [ip|]; simpl; [|quiet_leaf].
    all: match goal with
         | |- context [ProcessorInit ?p ?i ?pc ?w] =>
             destruct (ProcessorInit p i pc w) as [? [?|]] eqn:?
         end; simpl; [quiet_leaf|].
    all: intros H; (eapply quiet_trans; [|eapply IH; exact H]); quiet_now.
Qed.

Lemma initStages_quiet g (m m' : machine W) r :
  initStages rt g m = (m', r) -> quiet m m'.
Proof.
  unfold_methods. simpl.
  match goal with
  | |- context [initProcessors rt 0 ?ps ?m0] =>
      destruct (initProcessors rt 0 ps m0) as [m1 [e|[]]] eqn:Hprocs;
      pose proof (initProcessors_quiet _ _ _ Hprocs) as Hq
  end; simpl.
  { intros H; inversion H; subst; clear H.
    eapply quiet_trans; [|exact Hq]. quiet_now. }
  intros H.
  assert (Hq0 : quiet m m1) by (eapply quiet_trans; [|exact Hq]; quiet_now).
  clear Hq Hprocs. eapply quiet_trans; [exact Hq0|]. clear Hq0.
  revert H. exec.
  all: try (quiet_leaf; fail).
  all: match goal with
       | |- context [ExporterInit ?x ?i ?pc ?w] =>
           destruct (ExporterInit x i pc w) as [? [?|]] eqn:?
       end; exec; quiet_leaf.
Qed.

Lemma quiet_silent {A : Type} (f : event -> list A) (m m' : machine W) :
  quiet m m' -> (forall e, quietEvent e -> f e = []) ->
  flat_map f (since m m') = [].
Proof.
  intros (_ & _ & _ & _ & _ & Hq) Hf.
  eapply flat_map_nil_Forall; eassumption.
Qed.

Ltac unfold_init :=
  cbv beta iota zeta delta
    [initMetadata bind gets modify emit ret leave try when
     withWorld withDisk withTrace withPipe].

Lemma initMetadata_cases g (m m' : machine W) r :
  initMetadata rt g m = (m', r) ->
  exists m2 rl,
    initializeOrLoadBlockMetadata rt (withImporterGenesis g m) = (m2, rl)
    /\ disk m' = disk m2
    /\ extends m m'
    /\ flat_map written (since m m')
       = flat_map written (since (withImporterGenesis g m) m2)
    /\ flat_map asked (since m m') = []
    /\ flat_map handed (since m m') = []
    /\ importer (pipe m') = importer (pipe m)
    /\ ConduitArgs (cfg (pipe m')) = ConduitArgs (cfg (pipe m))
    /\ match rl with
       | inl e =>
           r = inl (FmtErrorf "Pipeline.Start(): could not read metadata" e)
       | inr st =>
           if (GenesisHash st =? EncodeToString (Hash g))%string
           then r = inr tt
                /\ pipelineMetadata (pipe m') = overridden (cfg (pipe m)) st
           else r = inl (GenesisMismatch (Hash g) (GenesisHash st))
       end.
Proof.
  unfold_init. simpl.
  fold (withPipe (withPipelineMetadata
              (withGenesis (EncodeToString (Hash g)) (GenesisNetwork g)
                           (pipelineMetadata (pipe m)))
              (pipe m)) m).
  fold (withImporterGenesis g m).
  destruct (initializeOrLoadBlockMetadata rt (withImporterGenesis g m))
    as [m2 rl] eqn:Hload.
  destruct (load_cases _ Hload) as ([evs Hevs] & Hev & Hpipe & _).
  assert (Hsince : since (withImporterGenesis g m) m2 = evs).
  { unfold since. rewrite Hevs. apply skipn_length_app. }
  assert (Hcfg : cfg (pipe m2) = cfg (pipe m)) by (rewrite Hpipe; reflexivity).
  assert (Himp : importer (pipe m2) = importer (pipe m))
    by (rewrite Hpipe; reflexivity).
  cbn [trace withImporterGenesis withPipe] in Hevs.
  intros Hinit. exists m2, rl. split; [reflexivity|].
  rewrite Hsince in Hev |- *. clear Hsince. revert Hinit.
  destruct rl as [e|st]; simpl.
  { intros Hr; inversion Hr; subst; clear Hr.
    unfold since; rewrite Hevs, skipn_length_app.
    repeat split; try assumption; try (rewrite Hcfg; reflexivity).
    - exists evs; first [exact Hevs|reflexivity].
    - eapply flat_map_nil_Forall; [exact Hev|]. intros []; simpl; tauto.
    - eapply flat_map_nil_Forall; [exact Hev|]. intros []; simpl; tauto. }
  destruct (GenesisHash st =? EncodeToString (Hash g))%string; simpl.
  - unfold overridden. rewrite Hcfg.
    destruct (NextRoundOverride (ConduitArgs (cfg (pipe m))) >? 0); simpl;
      intros Hr; inversion Hr; subst; clear Hr; since_norm;
      cbn [pipe trace cfg withPipelineMetadata pipelineMetadata importer];
      rewrite ?Hevs, <- ?app_assoc, ?skipn_length_app, ?flat_map_app;
      simpl; rewrite ?app_nil_r;
      repeat split; try assumption; try (rewrite Hcfg; reflexivity);
      try (eexists; rewrite <- ?app_assoc; reflexivity);
      try (exists evs; first [exact Hevs|reflexivity]);
      try (rewrite (flat_map_nil_Forall _ Hev); [reflexivity|];
           intros []; simpl; tauto).
  - intros Hr; inversion Hr; subst; clear Hr; since_norm;
      cbn [pipe trace cfg withPipelineMetadata pipelineMetadata importer];
      rewrite ?Hevs, ?skipn_length_app.
    repeat split; try assumption; try (rewrite Hcfg; reflexivity).
    + exists evs; first [exact Hevs|reflexivity].
    + eapply flat_map_nil_Forall; [exact Hev|]. intros []; simpl; tauto.
    + eapply flat_map_nil_Forall; [exact Hev|]. intros []; simpl; tauto.
Qed.

Lemma overridden_args c c' st :
  ConduitArgs c' = ConduitArgs c -> overridden c' st = overridden c st.
Proof. unfold overridden; intros ->; reflexivity. Qed.

Ltac quiet_obs Hq :=
  rewrite (quiet_silent _ Hq) by (intros []; simpl; tauto).

(** [Init], by how far it gets: it stops before the metadata is looked
    at, or it loads the metadata for the genesis the importer reported,
    and after a successful load and check nothing but the override
    changes the cursor and nothing touches the disk. *)
Lemma Init_cases (m m' : machine W) r :
  Init rt m = (m', r) ->
  extends m m'
  /\ flat_map asked (since m m') = []
  /\ flat_map handed (since m m') = []
  /\ ((disk m' = disk m /\ flat_map written (since m m') = []
       /\ exists e, r = inl e)
      \/ exists g ma mb rl,
           (exists pc w w',
              ImporterInit (importer (pipe m)) pc w = (w', Ok g))
           /\ disk ma = disk m
           /\ pipelineMetadata (pipe ma) = pipelineMetadata (pipe m)
           /\ initializeOrLoadBlockMetadata rt (withImporterGenesis g ma)
              = (mb, rl)
           /\ disk m' = disk mb
           /\ flat_map written (since m m')
              = flat_map written (since (withImporterGenesis g ma) mb)
           /\ match rl with
              | inl e =>
                  r = inl (FmtErrorf "Pipeline.Start(): could not read metadata" e)
              | inr st =>
                  if (GenesisHash st =? EncodeToString (Hash g))%string
                  then pipelineMetadata (pipe m')
                       = overridden (cfg (pipe m)) st
                  else r = inl (GenesisMismatch (Hash g) (GenesisHash st))
              end).
Proof.
  unfold Init, bind.
  destruct (initProfiling rt m) as [m1 r1] eqn:H1.
  pose proof (initProfiling_quiet _ H1) as Hq1.
  destruct r1 as [e|[]].
  { intros H; inversion H; subst; clear H.
    split; [apply Hq1|]. quiet_obs Hq1. quiet_obs Hq1.
    repeat split. left. quiet_obs Hq1. repeat split; [apply Hq1|eauto]. }
  destruct (initImporter rt m1) as [m2 r2] eqn:H2.
  destruct (initImporter_quiet _ H2) as [Hq2 Hg].
  pose proof (quiet_trans Hq1 Hq2) as Hq12.
  destruct r2 as [e|g].
  { intros H; inversion H; subst; clear H.
    split; [apply Hq12|]. quiet_obs Hq12. quiet_obs Hq12.
    repeat split. left. quiet_obs Hq12. repeat split; [apply Hq12|eauto]. }
  destruct (Hg g eq_refl) as (pc & w & w' & Himp).
  assert (Himp' : ImporterInit (importer (pipe m)) pc w = (w', Ok g)).
  { destruct Hq1 as (_ & _ & _ & <- & _). exact Himp. }
  clear Himp Hg H1 H2.
  destruct (initMetadata rt g m2) as [m3 r3] eqn:H3.
  destruct (initMetadata_cases _ _ H3)
    as (mb & rl & Hload & Hd3 & He3 & Hw3 & Ha3 & Hh3 & _ & Hc3 & Hrl).
  assert (He13 : extends m m3)
    by (eapply extends_trans; [apply Hq12|exact He3]).
  assert (Hobs : forall m4, quiet m3 m4 ->
            extends m m4
            /\ flat_map asked (since m m4) = []
            /\ flat_map handed (since m m4) = []
            /\ flat_map written (since m m4)
               = flat_map written (since (withImporterGenesis g m2) mb)).
  { intros m4 Hq4.
    assert (He4 : extends m3 m4) by apply Hq4.
    split; [eapply extends_trans; eassumption|].
    rewrite (since_trans He13 He4).
    assert (He2 : extends m m2) by apply Hq12.
    rewrite (since_trans He2 He3), !flat_map_app.
    quiet_obs Hq12. quiet_obs Hq12. quiet_obs Hq12.
    quiet_obs Hq4. quiet_obs Hq4. quiet_obs Hq4.
    rewrite Ha3, Hh3, Hw3, !app_nil_r. auto. }
  assert (Hargs : ConduitArgs (cfg (pipe m2)) = ConduitArgs (cfg (pipe m)))
    by apply Hq12.
  assert (Hcase : forall m4 r4, quiet m3 m4 ->
            (r3 = inr tt \/ r4 = r3) ->
            match rl with
            | inl e =>
                r4 = inl (FmtErrorf "Pipeline.Start(): could not read metadata" e)
            | inr st =>
                if (GenesisHash st =? EncodeToString (Hash g))%string
                then pipelineMetadata (pipe m4) = overridden (cfg (pipe m)) st
                else r4 = inl (GenesisMismatch (Hash g) (GenesisHash st))
            end).
  { intros m4 r4 Hq4 Hr4. destruct rl as [e|st].
    - destruct Hr4 as [Hr4|Hr4]; congruence.
    - destruct (GenesisHash st =? EncodeToString (Hash g))%string.
      + destruct Hrl as [_ Hmeta].
        destruct Hq4 as (_ & _ & -> & _). rewrite Hmeta.
        apply overridden_args; exact Hargs.
      + destruct Hr4 as [Hr4|Hr4]; congruence. }
  destruct r3 as [e|[]].
  - intros H; inversion H; subst; clear H.
    destruct (Hobs m' (quiet_refl m')) as (Hx & Hy & Hz & Hw).
    split; [exact Hx|]. split; [exact Hy|]. split; [exact Hz|].
    right. exists g, m2, mb, rl.
    split; [eauto|]. split; [apply Hq12|]. split; [apply Hq12|].
    split; [exact Hload|]. split; [exact Hd3|]. split; [exact Hw|].
    apply Hcase; [apply quiet_refl|right; reflexivity].
  - intros H4. pose proof (initStages_quiet _ _ H4) as Hq4.
    destruct (Hobs m' Hq4) as (Hx & Hy & Hz & Hw).
    split; [exact Hx|]. split; [exact Hy|]. split; [exact Hz|].
    right. exists g, m2, mb, rl.
    split; [eauto|]. split; [apply Hq12|]. split; [apply Hq12|].
    split; [exact Hload|].
    split; [destruct Hq4 as (_ & -> & _); exact Hd3|]. split; [exact Hw|].
    apply Hcase; [exact Hq4|left; reflexivity].
Qed.

(** *** Genesis binding *)

(** C5.  When the metadata file is a JSON document whose genesis-hash
    field differs from the base64 of every hash the importer reports,
    [Init] returns an error, without asking the importer for a block or
    handing one to the exporter, and without writing the metadata file,
    which stays as it was. *)
Theorem genesis_mismatch_fails_init (m m' : machine W) r d h :
  Init rt m = (m', r) ->
  metadataFile (disk m) = Some (Json d) ->
  docGenesisHash d = Some h ->
  (forall pc w w' g,
     ImporterInit (importer (pipe m)) pc w = (w', Ok g) ->
     EncodeToString (Hash g) <> h) ->
  (exists e, r = inl e)
  /\ metadataFile (disk m') = metadataFile (disk m)
  /\ flat_map written (since m m') = []
  /\ flat_map asked (since m m') = []
  /\ flat_map handed (since m m') = [].
Proof.
  intros HInit Hfile Hhash Hdiff.
  destruct (Init_cases _ HInit) as (_ & Ha & Hh & Hcase).
  destruct Hcase as [(Hd & Hw & He)
                    |(g & ma & mb & rl & (pc & w & w' & Himp) & Hda & _
                      & Hload & Hdb & Hw & Hrl)].
  { repeat split; try assumption. rewrite Hd; reflexivity. }
  specialize (Hdiff _ _ _ _ Himp).
  destruct (load_cases _ Hload) as (_ & _ & _ & Hl).
  assert (Hfile' : metadataFile (disk (withImporterGenesis g ma))
                   = Some (Json d))
    by (cbn [withImporterGenesis withPipe disk]; rewrite Hda; exact Hfile).
  rewrite Hw, Hdb. destruct rl as [e|st].
  - destruct Hl as (Hwr & Hdisk & _).
    split; [eauto|]. split; [|auto].
    destruct Hdisk as [->|[Hz _]]; [congruence|congruence].
  - destruct Hl as (_ & Hl). rewrite Hfile' in Hl.
    destruct Hl as (Hdisk & Hsince & Hun).
    assert (Hgh : GenesisHash st = h).
    { cbn [jsonUnmarshal] in Hun. destruct (next_round_fits d); [|discriminate].
      inversion Hun; subst. cbn [storeFields GenesisHash].
      rewrite Hhash. reflexivity. }
    assert (Hneq : (GenesisHash st =? EncodeToString (Hash g))%string = false).
    { apply String.eqb_neq. congruence. }
    rewrite Hneq in Hrl.
    split; [eauto|]. rewrite Hdisk, Hsince.
    cbn [withImporterGenesis withPipe disk]. rewrite Hda. auto.
Qed.

(** *** The override *)

Lemma turns_without_export n :
  forall g (m m' : machine W) g',
    turns rt n g m = (m', g') ->
    flat_map exported (since m m') = [] ->
    disk m' = disk m
    /\ pipelineMetadata (pipe m') = pipelineMetadata (pipe m).
Proof.
  induction n as [|n IH]; intros g m m' g'; simpl.
  - intros H; inversion H; subst. auto.
  - destruct (turn rt g m) as [m1 g1] eqn:Hturn. intros Hrun.
    pose proof (turn_extends _ _ Hturn) as He1.
    pose proof (turns_extends _ _ _ Hrun) as He2.
    rewrite (since_trans He1 He2), flat_map_app. intros Hnil.
    apply app_eq_nil in Hnil. destruct Hnil as [Hn1 Hn2].
    destruct (IH _ _ _ _ Hrun Hn2) as [-> ->].
    destruct (turn_cursor _ _ Hturn) as [(_ & Hm & Hd & _)|(blk & Hexp & _)].
    + auto.
    + rewrite Hexp in Hn1; discriminate Hn1.
Qed.

(** C10.  When [Init] succeeds with NextRoundOverride > 0, the cursor in
    memory is the record loaded from the metadata with its next-round
    replaced by the override, while the metadata file still holds the
    next-round that was loaded: [Init] leaves a file that was there as it
    found it, or creates it from the record as it was before the
    override.  After that the worker leaves the file alone until a pass
    in which the exporter accepts a block. *)
Theorem override_is_applied_in_memory_only (m m' : machine W) :
  Init rt m = (m', inr tt) ->
  NextRoundOverride (ConduitArgs (cfg (pipe m))) > 0 ->
  exists loaded,
    pipelineMetadata (pipe m')
    = withNextRound (NextRoundOverride (ConduitArgs (cfg (pipe m)))) loaded
    /\ (forall n, fileNextRound (metadataFile (disk m')) = Some n ->
                  n = NextRound loaded)
    /\ (forall data, metadataFile (disk m) = Some data -> data <> ZeroLength ->
                     disk m' = disk m /\ flat_map written (since m m') = [])
    /\ (metadataFile (disk m) = None \/ metadataFile (disk m) = Some ZeroLength ->
        NextRound loaded = NextRound (pipelineMetadata (pipe m))
        /\ metadataFile (disk m') = Some (Json (jsonEncode loaded))
        /\ flat_map written (since m m') = [NextRound loaded])
    /\ forall n g m'' g',
         turns rt n g m' = (m'', g') ->
         flat_map exported (since m' m'') = [] ->
         disk m'' = disk m'
         /\ NextRound (pipelineMetadata (pipe m''))
            = NextRoundOverride (ConduitArgs (cfg (pipe m))).
Proof.
  intros HInit Hover.
  destruct (Init_cases _ HInit) as (_ & _ & _ & Hcase).
  destruct Hcase as [(_ & _ & e & He)
                    |(g & ma & mb & rl & _ & Hda & Hma & Hload & Hdb & Hw & Hrl)];
    [discriminate He|].
  destruct (load_cases _ Hload) as (_ & _ & _ & Hl).
  destruct rl as [e|st]; [discriminate Hrl|].
  destruct (GenesisHash st =? EncodeToString (Hash g))%string;
    [|discriminate Hrl].
  destruct Hl as (_ & Hl).
  cbn [withImporterGenesis withPipe disk pipe pipelineMetadata
       withPipelineMetadata] in Hl.
  rewrite Hda, Hma in Hl.
  assert (Hmeta : pipelineMetadata (pipe m')
     = withNextRound (NextRoundOverride (ConduitArgs (cfg (pipe m)))) st).
  { rewrite Hrl. unfold overridden.
    replace (NextRoundOverride (ConduitArgs (cfg (pipe m))) >? 0) with true
      by (symmetry; rewrite Z.gtb_ltb; apply Z.ltb_lt; lia).
    reflexivity. }
  exists st. split; [exact Hmeta|].
  rewrite Hw, Hdb.
  split; [|split; [|split]].
  - intros n. destruct (metadataFile (disk m)) as [[|d|d]|] eqn:Hfile.
    + destruct Hl as (_ & -> & _). simpl. congruence.
    + destruct Hl as (-> & _ & Hun).
      cbn [withImporterGenesis withPipe disk]. rewrite ?Hda, Hfile.
      cbn [fileNextRound]. intros Hn.
      cbn [jsonUnmarshal] in Hun. destruct (next_round_fits d); [|discriminate].
      inversion Hun; subst. cbn [storeFields NextRound].
      rewrite Hn. reflexivity.
    + destruct Hl as (_ & _ & Hun). discriminate Hun.
    + destruct Hl as (_ & -> & _). simpl. congruence.
  - intros data Hfile Hnz. rewrite Hfile in Hl.
    destruct data as [|d|d]; [congruence| |];
      destruct Hl as (-> & -> & _);
      cbn [withImporterGenesis withPipe disk]; auto.
  - intros [Hfile|Hfile]; rewrite Hfile in Hl;
      destruct Hl as (-> & -> & ->); simpl; auto.
  - intros n g0 m'' g' Hturns Hexp.
    destruct (turns_without_export _ _ _ Hturns Hexp) as [-> ->].
    rewrite Hmeta. auto.
Qed.

End Facts.

Transparent opening closing blockMetrics nap.

(** * The retry sleep and the clock *)

(** C2 (as the code has it).  The retry sleep is [time.Sleep]: it is not
    interrupted.  A worker about to retry whose context is cancelled
    before the sleep is over (before it begins, or at any instant during
    it) sleeps for the whole RetryDelay and only then sees the
    cancellation: it returns without calling the importer, RetryDelay
    after the sleep began. *)
Theorem retry_sleep_runs_to_its_end faulty (m : machine Lab) retry tc :
  0 < retry <= RetryCount (cfg (pipe m)) ->
  0 <= RetryDelay (cfg (pipe m)) ->
  cancelAt (world m) = Some tc ->
  tc <= clock (world m) + RetryDelay (cfg (pipe m)) ->
  exists m',
    pipelineRun (labRuntime faulty true) retry m = (m', inl Return)
    /\ since m m' = [Observe (PipelineRetryCount retry);
                     Sleep (RetryDelay (cfg (pipe m)))]
    /\ clock (world m') = clock (world m) + RetryDelay (cfg (pipe m)).
Proof.
  intros [Hpos Hbudget] Hdelay Hcancel Htc.
  assert (Hnap : (retry >? 0) = true)
    by (rewrite Z.gtb_ltb; apply Z.ltb_lt; lia).
  assert (Hdone : ctxDone (labRuntime faulty true)
                    (rested (labRuntime faulty true) retry (cfg (pipe m))
                            (world m)) = true).
  { unfold rested. rewrite Hnap. cbn [labRuntime ctxDone timeSleep andb].
    unfold labDone, labSleep; cbn [cancelAt clock]. rewrite Hcancel.
    apply Z.leb_le. lia. }
  destruct (pipelineRun_pass (labRuntime faulty true) retry m)
    as (m' & r & evs & Hrun & Hpass).
  exists m'. rewrite Hrun, (pass_since Hpass).
  inversion Hpass; subst; clear Hpass; try congruence.
  - exfalso. rewrite Z.gtb_ltb in H. apply Z.ltb_lt in H. lia.
  - unfold nap, rested. rewrite Hnap. cbn [world mk labRuntime timeSleep].
    unfold labSleep; cbn [clock]. rewrite Z.max_r by lia. auto.
Qed.

(** * The scenarios *)

(** Scenario 1: the exporter sees rounds 0 to 3 and the metadata file
    ends at next-round 4. *)
Example empty_processor_chain :
  received (world (afterTurns background 4 (ready background scenario1)))
  = [0; 1; 2; 3]
  /\ fileNextRound
       (metadataFile (disk (afterTurns background 4 (ready background scenario1))))
     = Some 4.
Proof. split; vm_compute; reflexivity. Qed.



(** Scenario 6, the pass after the importer failed: the context is
    cancelled at tick 5 and the worker returns at tick 1005. *)
Lemma retry_sleep_runs_to_its_end_witness :
  (0 < 1 <= RetryCount (cfg (pipe (afterPass cancellable 0
                                     (ready cancellable scenario6))))
   /\ 0 <= RetryDelay (cfg (pipe (afterPass cancellable 0
                                    (ready cancellable scenario6))))
   /\ cancelAt (world (afterPass cancellable 0 (ready cancellable scenario6)))
      = Some 5
   /\ 5 <= clock (world (afterPass cancellable 0
                           (ready cancellable scenario6)))
           + RetryDelay (cfg (pipe (afterPass cancellable 0
                                      (ready cancellable scenario6)))))
  /\ exists m',
       pipelineRun cancellable 1
         (afterPass cancellable 0 (ready cancellable scenario6))
       = (m', inl Return)
       /\ clock (world m') = 1005.
Proof.
  set (m := afterPass cancellable 0 (ready cancellable scenario6)).
  assert (H1 : 0 < 1 <= RetryCount (cfg (pipe m))) by (vm_compute; split; congruence).
  assert (H2 : 0 <= RetryDelay (cfg (pipe m))) by (vm_compute; congruence).
  assert (H3 : cancelAt (world m) = Some 5) by reflexivity.
  assert (H4 : 5 <= clock (world m) + RetryDelay (cfg (pipe m)))
    by (vm_compute; congruence).
  split; [auto|].
  destruct (@retry_sleep_runs_to_its_end noFault m 1 5 H1 H2 H3 H4)
    as (m' & Hrun & _ & Hclock).
  exists m'. split; [exact Hrun|]. rewrite Hclock. reflexivity.
Defined.

(** C2, as stated, fails on scenario 6: the importer fails at tick 5, the
    worker enters the retry sleep of 1000 ticks, the context is cancelled
    at tick 5, and the worker returns at tick 1005: a full RetryDelay
    after the cancellation, not less. *)
Lemma cancelled_worker_sleeps_the_whole_delay :
  Start cancellable 2 (ready cancellable scenario6)
  = (afterTurns cancellable 2 (ready cancellable scenario6), Returned)
  /\ cancelAt (world (afterTurns cancellable 2 (ready cancellable scenario6)))
     = Some 5
  /\ clock (world (afterTurns cancellable 2 (ready cancellable scenario6)))
     = 1005
  /\ ~ (clock (world (afterTurns cancellable 2 (ready cancellable scenario6)))
        - 5
        < RetryDelay (cfg (pipe (ready cancellable scenario6)))).
Proof.
  split; [vm_compute; reflexivity|].
  split; [reflexivity|].
  split; [reflexivity|].
  vm_compute. intros H; discriminate H.
Qed.

(** Scenario 4: three attempts on round 3, then the worker returns with
    the exporter's error and the cursor file still at round 3. *)
Lemma always_failing_stage_exhausts_retries_witness :
  (0 <= RetryCount (cfg (pipe (ready background scenario4))) < MaxUint64
   /\ (forall w, ctxDone background w = false)
   /\ failsAlways (pipe (ready background scenario4)) ExporterStage
                  (PluginError "exporter")
   /\ (Z.to_nat (RetryCount (cfg (pipe (ready background scenario4)))) + 2
       <= 4)%nat)
  /\ exists m',
       Start background 4 (ready background scenario4) = (m', Returned)
       /\ flat_map asked (since (ready background scenario4) m') = [3; 3; 3]
       /\ Error m' = Some (PluginError "exporter")
       /\ fileNextRound (metadataFile (disk m')) = Some 3.
Proof.
  set (m := ready background scenario4).
  assert (H1 : 0 <= RetryCount (cfg (pipe m)) < MaxUint64)
    by (vm_compute; split; congruence).
  assert (H2 : forall w, ctxDone background w = false) by reflexivity.
  assert (H3 : failsAlways (pipe m) ExporterStage (PluginError "exporter")).
  { split; [|split].
    - intros round w. eexists; eexists; reflexivity.
    - constructor.
    - intros blk w. eexists; reflexivity. }
  assert (H4 : (Z.to_nat (RetryCount (cfg (pipe m))) + 2 <= 4)%nat)
    by (vm_compute; repeat constructor).
  split; [auto|].
  destruct (@always_failing_stage_exhausts_retries Lab background m
              ExporterStage (PluginError "exporter") 4%nat H1 H2 H3 H4)
    as (m' & Hrun & Hasked & Herr & Hdisk & _).
  exists m'. split; [exact Hrun|]. split; [exact Hasked|].
  split; [exact Herr|]. rewrite Hdisk. reflexivity.
Defined.

(** C3, as stated for every configuration, fails at the largest retry
    budget: with RetryCount = 2^64 - 1 and an importer that always fails
    the worker never returns, however many turns it is given. *)
Lemma largest_retry_budget_never_returns :
  RetryCount (cfg (pipe (ready background unboundedRetries))) = MaxUint64
  /\ failsAlways (pipe (ready background unboundedRetries)) ImporterStage
                 (PluginError "importer")
  /\ ~ exists n, snd (Start background n (ready background unboundedRetries))
                 = Returned.
Proof.
  set (m := ready background unboundedRetries).
  assert (H1 : RetryCount (cfg (pipe m)) = MaxUint64) by reflexivity.
  assert (H2 : failsAlways (pipe m) ImporterStage (PluginError "importer")).
  { intros round w. eexists; reflexivity. }
  split; [exact H1|]. split; [exact H2|].
  intros [n Hn].
  destruct (@budget_never_exhausted Lab background ImporterStage
              (PluginError "importer") n 0 m H1 H2)
    as (m' & retry' & Hrun).
  - reflexivity.
  - split; [lia|reflexivity].
  - unfold Start in Hn. rewrite Hrun in Hn. discriminate Hn.
Qed.

(** Scenario 1: four rounds from an empty data directory. *)
Lemma cursor_grows_by_one_per_export_witness :
  (turns background 4 (Running 0) (ready background scenario1)
   = (afterTurns background 4 (ready background scenario1), Running 0)
   /\ 0 <= NextRound (pipelineMetadata (pipe (ready background scenario1)))
   /\ NextRound (pipelineMetadata (pipe (ready background scenario1)))
      + Z.of_nat 4 <= MaxUint64)
  /\ NextRound (pipelineMetadata
                  (pipe (afterTurns background 4 (ready background scenario1))))
     = 4
  /\ StronglySorted Z.lt
       (flat_map written
          (since (ready background scenario1)
                 (afterTurns background 4 (ready background scenario1))))
  /\ flat_map written
       (since (ready background scenario1)
              (afterTurns background 4 (ready background scenario1)))
     = [1; 2; 3; 4].
Proof.
  set (m := ready background scenario1).
  set (m' := afterTurns background 4 m).
  assert (H1 : turns background 4 (Running 0) m = (m', Running 0))
    by (vm_compute; reflexivity).
  assert (H2 : 0 <= NextRound (pipelineMetadata (pipe m)))
    by (vm_compute; congruence).
  assert (H3 : NextRound (pipelineMetadata (pipe m)) + Z.of_nat 4 <= MaxUint64)
    by (vm_compute; congruence).
  split; [auto|].
  destruct (@cursor_grows_by_one_per_export Lab background 4 (Running 0)
              m m' (Running 0) H1 H2 H3) as (Hn & Hs & _).
  split; [rewrite Hn; reflexivity|]. split; [exact Hs|].
  vm_compute; reflexivity.
Defined.

(** C4, as stated for any execution, fails where the cursor wraps
    around: from next-round 2^64 - 2 two exported rounds put 2^64 - 1 and
    then 0 in the metadata file. *)
Lemma cursor_wraps_around :
  NextRound (pipelineMetadata (pipe (ready background nearWrapAround)))
  = 18446744073709551614
  /\ map Round
       (flat_map exported
          (since (ready background nearWrapAround)
                 (afterTurns background 2 (ready background nearWrapAround))))
     = [18446744073709551614; 18446744073709551615]
  /\ flat_map written
       (since (ready background nearWrapAround)
              (afterTurns background 2 (ready background nearWrapAround)))
     = [18446744073709551615; 0]
  /\ ~ StronglySorted Z.le
         (flat_map written
            (since (ready background nearWrapAround)
                   (afterTurns background 2 (ready background nearWrapAround)))).
Proof.
  split; [vm_compute; reflexivity|].
  split; [vm_compute; reflexivity|].
  assert (Hw : flat_map written
            (since (ready background nearWrapAround)
                   (afterTurns background 2 (ready background nearWrapAround)))
          = [18446744073709551615; 0]) by (vm_compute; reflexivity).
  split; [exact Hw|]. rewrite Hw. intros Hs.
  inversion Hs as [|a l _ Hall]; subst.
  inversion Hall as [|b l' Hle _]; subst. lia.
Qed.

(** Scenario 2: the cursor file of genesis A, an importer reporting
    genesis B: Init fails and the file still says round 5. *)
Lemma genesis_mismatch_fails_init_witness :
  (Init background scenario2
   = (ready background scenario2,
      inl (GenesisMismatch hashB (EncodeToString hashA)))
   /\ metadataFile (disk scenario2) = Some (cursorFile hashA 5)
   /\ (forall pc w w' g,
         ImporterInit (importer (pipe scenario2)) pc w = (w', Ok g) ->
         EncodeToString (Hash g) <> EncodeToString hashA))
  /\ fileNextRound (metadataFile (disk (ready background scenario2))) = Some 5
  /\ flat_map asked (since scenario2 (ready background scenario2)) = [].
Proof.
  assert (H1 : Init background scenario2
               = (ready background scenario2,
                  inl (GenesisMismatch hashB (EncodeToString hashA))))
    by (vm_compute; reflexivity).
  assert (H2 : metadataFile (disk scenario2) = Some (cursorFile hashA 5))
    by reflexivity.
  assert (H3 : forall pc w w' g,
             ImporterInit (importer (pipe scenario2)) pc w = (w', Ok g) ->
             EncodeToString (Hash g) <> EncodeToString hashA).
  { intros pc w w' g H. inversion H; subst. vm_compute. discriminate. }
  split; [auto|].
  destruct (@genesis_mismatch_fails_init Lab background scenario2
              (ready background scenario2) _ _ (EncodeToString hashA)
              H1 H2 eq_refl H3) as (_ & Hfile & _ & Hasked & _).
  split; [rewrite Hfile; reflexivity|exact Hasked].
Defined.

(** Scenario 7 again: after the failed callback the next round succeeds,
    which clears the error and resets [retry]. *)
Lemma success_clears_error_and_resets_retry_witness :
  (pipelineRun background 1
     (afterPass background 0 (ready background scenario7))
   = (afterPass background 1
        (afterPass background 0 (ready background scenario7)), inr 0)
   /\ Error (afterPass background 0 (ready background scenario7))
      = Some (PluginError "oncomplete"))
  /\ Error (afterPass background 1
              (afterPass background 0 (ready background scenario7)))
     = None.
Proof.
  set (m := afterPass background 0 (ready background scenario7)).
  set (m' := afterPass background 1 m).
  assert (H1 : pipelineRun background 1 m = (m', inr 0))
    by (vm_compute; reflexivity).
  split; [split; [exact H1|reflexivity]|].
  destruct (@success_clears_error_and_resets_retry Lab background 1 m m' _ H1)
    as [Hok _].
  destruct Hok as (_ & Herr & _).
  - vm_compute. discriminate.
  - vm_compute. reflexivity.
  - exact Herr.
Defined.

(** Scenario 5 on a disk where the rename fails: round 50 is exported,
    the flush error is logged, the callback is called, the round
    completes, and the file still says round 100. *)
Lemma flush_failure_is_logged_and_round_goes_on_witness :
  (pipelineRun readOnly 0 (ready background scenario5)
   = (afterPass readOnly 0 (ready background scenario5), inr 0)
   /\ flat_map exported
        (since (ready background scenario5)
               (afterPass readOnly 0 (ready background scenario5)))
      = [blockOf 50]
   /\ flat_map written
        (since (ready background scenario5)
               (afterPass readOnly 0 (ready background scenario5)))
      = [])
  /\ fileNextRound
       (metadataFile (disk (afterPass readOnly 0 (ready background scenario5))))
     = Some 100
  /\ NextRound (pipelineMetadata
                  (pipe (afterPass readOnly 0 (ready background scenario5))))
     = 51
  /\ exists res,
       In (CallOnComplete 0 (blockOf 50) res)
          (since (ready background scenario5)
                 (afterPass readOnly 0 (ready background scenario5))).
Proof.
  set (m := ready background scenario5).
  set (m' := afterPass readOnly 0 m).
  assert (H1 : pipelineRun readOnly 0 m = (m', inr 0))
    by (vm_compute; reflexivity).
  assert (H2 : flat_map exported (since m m') = [blockOf 50])
    by (vm_compute; reflexivity).
  assert (H3 : flat_map written (since m m') = [])
    by (vm_compute; reflexivity).
  split; [auto|].
  destruct (@flush_failure_is_logged_and_round_goes_on Lab readOnly 0 m m' _
              (blockOf 50) H1 H2 H3) as (_ & Hfile & Hnext & Hcb & _).
  split; [rewrite Hfile; reflexivity|].
  split; [rewrite Hnext; reflexivity|].
  apply Hcb. vm_compute. discriminate.
Defined.

(** Scenario 1 and scenario 5: a missing file is created from the
    in-memory record; a file holding a record is read back. *)
Lemma metadata_load_policy_witness :
  (initializeOrLoadBlockMetadata background scenario1
   = (fst (initializeOrLoadBlockMetadata background scenario1),
      inr (pipelineMetadata (pipe scenario1))))
  /\ metadataFile
       (disk (fst (initializeOrLoadBlockMetadata background scenario1)))
     = Some (Json (jsonEncode (pipelineMetadata (pipe scenario1))))
  /\ initializeOrLoadBlockMetadata background scenario5
     = (fst (initializeOrLoadBlockMetadata background scenario5),
        inr {| GenesisHash := EncodeToString hashA; Network := "testnet";
               NextRound := 100 |}).
Proof.
  assert (H1 : initializeOrLoadBlockMetadata background scenario1
               = (fst (initializeOrLoadBlockMetadata background scenario1),
                  inr (pipelineMetadata (pipe scenario1))))
    by (vm_compute; reflexivity).
  split; [exact H1|].
  destruct (@metadata_load_policy Lab background scenario1 _ _ H1)
    as (Hok & _ & _).
  destruct (Hok _ eq_refl) as (_ & Hcase).
  split; [apply Hcase|].
  assert (H5 : initializeOrLoadBlockMetadata background scenario5
               = (fst (initializeOrLoadBlockMetadata background scenario5),
                  snd (initializeOrLoadBlockMetadata background scenario5)))
    by apply surjective_pairing.
  destruct (@metadata_load_policy Lab background scenario5 _ _ H5)
    as (_ & _ & Hrec).
  assert (Hr : snd (initializeOrLoadBlockMetadata background scenario5)
               = inr {| GenesisHash := EncodeToString hashA;
                        Network := "testnet"; NextRound := 100 |}).
  { apply Hrec.
    - reflexivity.
    - vm_compute. split; congruence.
    - intros op w. reflexivity. }
  rewrite <- Hr. exact H5.
Defined.

(** Scenario 4, first pass: the exporter fails; the retry metric is
    observed, and so is the importer's time. *)
Lemma timings_follow_each_stage_witness :
  pipelineRun background 0 (ready background scenario4)
  = (afterPass background 0 (ready background scenario4),
     inl (PipelineRun 1))
  /\ In ImporterTimeSeconds
        (flat_map timings
           (since (ready background scenario4)
                  (afterPass background 0 (ready background scenario4))))
  /\ ~ In ExporterTimeSeconds
        (flat_map timings
           (since (ready background scenario4)
                  (afterPass background 0 (ready background scenario4)))).
Proof.
  set (m := ready background scenario4).
  set (m' := afterPass background 0 m).
  assert (H1 : pipelineRun background 0 m = (m', inl (PipelineRun 1)))
    by (vm_compute; reflexivity).
  split; [exact H1|].
  destruct (@timings_follow_each_stage Lab background 0 m m' _ H1)
    as (_ & _ & Himp & _ & Hexp).
  split.
  - apply Himp. vm_compute. discriminate.
  - intros Hin. apply Hexp in Hin. discriminate Hin.
Defined.

(** C9, as stated, fails on scenario 4: the attempt fails at the
    exporter, and by then it has added an observation to the importer's
    timing histogram. *)
Lemma failed_attempt_observes_importer_time :
  snd (pipelineRun background 0 (ready background scenario4))
  = inl (PipelineRun 1)
  /\ flat_map failures
       (since (ready background scenario4)
              (afterPass background 0 (ready background scenario4)))
     = [PluginError "exporter"]
  /\ flat_map timings
       (since (ready background scenario4)
              (afterPass background 0 (ready background scenario4)))
     = [ImporterTimeSeconds]
  /\ flat_map timings
       (since (ready background scenario4)
              (afterPass background 0 (ready background scenario4)))
     <> [].
Proof.
  split; [vm_compute; reflexivity|].
  split; [vm_compute; reflexivity|].
  split; [vm_compute; reflexivity|].
  vm_compute. discriminate.
Qed.

(** Scenario 5: next-round 100 on disk, override 50.  After Init the
    cursor in memory is 50 and the file still says 100; it still does
    after a run of the worker in which nothing is exported. *)
Lemma override_is_applied_in_memory_only_witness :
  (Init background scenario5 = (ready background scenario5, inr tt)
   /\ NextRoundOverride (ConduitArgs (cfg (pipe scenario5))) > 0)
  /\ NextRound (pipelineMetadata (pipe (ready background scenario5))) = 50
  /\ fileNextRound (metadataFile (disk (ready background scenario5)))
     = Some 100
  /\ flat_map asked
       (since (ready background scenario5)
              (afterPass background 0 (ready background scenario5)))
     = [50].
Proof.
  assert (H1 : Init background scenario5 = (ready background scenario5, inr tt))
    by (vm_compute; reflexivity).
  assert (H2 : NextRoundOverride (ConduitArgs (cfg (pipe scenario5))) > 0)
    by (vm_compute; reflexivity).
  split; [auto|].
  destruct (@override_is_applied_in_memory_only Lab background scenario5
              (ready background scenario5) H1 H2)
    as (loaded & Hmeta & _ & Hkeep & _).
  split; [rewrite Hmeta; reflexivity|].
  destruct (Hkeep (cursorFile hashA 100) eq_refl) as [Hdisk _];
    [discriminate|].
  split; [rewrite Hdisk; reflexivity|].
  vm_compute. reflexivity.
Defined.
